(** * fivek_crawler: a shallow embedding of [FivekCrawler] and its properties

    The development follows [fivek_crawler.py] top to bottom. It starts with
    what the script borrows from Python: [re.finditer] for its one pattern,
    [str.split], slicing, [int], [str.replace] and [pathlib.Path]. Then come
    the exceptions the script can meet, the events it leaves behind, and each
    method of the class as a computation in a small state-and-exception
    monad. The vocabulary of the properties and the crawlers, networks and
    worlds used as examples follow, and the properties come last, one
    section per component: the URL extractor, directory preparation, the
    download worker, the listing fetch, the bulk phase and the cleanup
    phases.

    Text is modelled as [string], one [ascii] per code point in the range
    U+0000..U+00FF. The network is a parameter: a function that gives the
    reply to a request from the requests made before it. The file system is
    one on which every directory has one name, [mkdir] fails only because
    the directory exists, and [open] for writing fails only because the
    directory of the file is missing. The random [User-Agent] of
    [_choose_header] influences nothing that is modelled and is left out. *)

From stdpp Require Import base strings list gmap pretty.
From Stdlib Require Import Ascii ZArith Lia Sorted.

Local Open Scope string_scope.
Local Open Scope Z_scope.

(* ===================================================================== *)
(** ** Python strings *)
(* ===================================================================== *)

Module PyStr.

Definition code (c : ascii) : N := N_of_ascii c.

Definition newline : ascii := "010"%char.

(** A line of output: the text and the newline [print] ends it with. *)
Definition line (s : string) : string := s +:+ String newline "".

(** [str.isspace] as the [re] module uses it for [\s] and [\S] on [str]
    patterns: the ASCII table marks 0x09-0x0D and 0x1C-0x20, the Unicode
    database adds U+0085 and U+00A0 below U+0100. *)
Definition is_space_re (c : ascii) : bool :=
  let n := code c in
  ((9 <=? n) && (n <=? 13) || (28 <=? n) && (n <=? 32)
   || (n =? 133) || (n =? 160))%N.

(** Whitespace that [int] strips: the C [isspace] set for code points below
    127, Unicode whitespace above. *)
Definition is_space_int (c : ascii) : bool :=
  let n := code c in
  ((9 <=? n) && (n <=? 13) || (n =? 32) || (n =? 133) || (n =? 160))%N.

Definition is_digit (c : ascii) : bool :=
  let n := code c in ((48 <=? n) && (n <=? 57))%N.

Definition digit_val (c : ascii) : Z := Z.of_N (code c) - 48.

Definition is_alnum (c : ascii) : bool :=
  let n := code c in
  ((48 <=? n) && (n <=? 57) || (65 <=? n) && (n <=? 90)
   || (97 <=? n) && (n <=? 122))%N.

Fixpoint all_chars (p : ascii -> bool) (s : string) : bool :=
  match s with
  | EmptyString => true
  | String c s' => p c && all_chars p s'
  end.

Fixpoint has_char (c : ascii) (s : string) : bool :=
  match s with
  | EmptyString => false
  | String d s' => Ascii.eqb c d || has_char c s'
  end.

Fixpoint take (n : nat) (s : string) : string :=
  match n, s with
  | S n', String c s' => String c (take n' s')
  | _, _ => EmptyString
  end.

Fixpoint drop (n : nat) (s : string) : string :=
  match n, s with
  | S n', String _ s' => drop n' s'
  | _, _ => s
  end.

(** [s[i:j]] for [0 <= i <= j]. *)
Definition slice (i j : nat) (s : string) : string :=
  take (j - i) (drop i s).

(** ["".join(l)]. *)
Definition join_empty (l : list string) : string :=
  foldr String.append EmptyString l.

(** [sep.join(l)]. *)
Fixpoint join (sep : string) (l : list string) : string :=
  match l with
  | [] => EmptyString
  | [x] => x
  | x :: l' => x +:+ sep +:+ join sep l'
  end.

(** [s.split(sep)] for a one-character separator: never the empty list. *)
Fixpoint split (sep : ascii) (s : string) : list string :=
  match s with
  | EmptyString => [EmptyString]
  | String c s' =>
      if Ascii.eqb c sep then EmptyString :: split sep s'
      else match split sep s' with
           | h :: t => String c h :: t
           | [] => [String c EmptyString]
           end
  end.

(** [l[-1]] on the result of a split. *)
Definition last_item (l : list string) : string := List.last l EmptyString.

(** [s.replace(old, new)] for a non-empty [old]: every occurrence, left to
    right, without overlap. [skip] counts the characters of an occurrence
    that are still to be passed over. *)
Fixpoint replace_from (old new : string) (s : string) (skip : nat) : string :=
  match s with
  | EmptyString => EmptyString
  | String c s' =>
      match skip with
      | S k => replace_from old new s' k
      | O =>
          if String.prefix old s
          then new +:+ replace_from old new s' (String.length old - 1)
          else String c (replace_from old new s' 0)
      end
  end.

Definition replace (old new s : string) : string := replace_from old new s 0.

(** [f"{s:>7s}"]: right-aligned in a field of [w] characters. *)
Definition rjust (w : nat) (s : string) : string :=
  join_empty (replicate (w - String.length s) " ") +:+ s.

(** *** [int(s)] in base ten

    Surrounding whitespace is stripped, one sign is allowed, and the digits
    may be separated by single underscores; anything else is a
    [ValueError], here [None]. *)

Fixpoint lstrip (s : string) : string :=
  match s with
  | String c s' => if is_space_int c then lstrip s' else s
  | EmptyString => s
  end.

(** The digits after the first one; [acc] is the value read so far. *)
Fixpoint int_digits (s : string) (acc : Z) : option Z :=
  match s with
  | EmptyString => Some acc
  | String c s' =>
      if is_digit c then int_digits s' (10 * acc + digit_val c)
      else if Ascii.eqb c "_" then
        match s' with
        | String d s'' =>
            if is_digit d then int_digits s'' (10 * acc + digit_val d)
            else None
        | EmptyString => None
        end
      else if all_chars is_space_int s then Some acc
      else None
  end.

Definition int_unsigned (s : string) : option Z :=
  match s with
  | String d s' => if is_digit d then int_digits s' (digit_val d) else None
  | EmptyString => None
  end.

Definition int (s : string) : option Z :=
  match lstrip s with
  | String "+" s' => int_unsigned s'
  | String "-" s' => Z.opp <$> int_unsigned s'
  | s' => int_unsigned s'
  end.

End PyStr.

(* ===================================================================== *)
(** ** [re.finditer] for the crawler's pattern *)
(* ===================================================================== *)

(** The pattern is [rf"img/tiff16_[{expert_list}]/\S*.tif"]: the literal
    [img/tiff16_], one character of the class, a slash, a greedy run of
    non-whitespace characters, any character but a newline, and the literal
    [tif]. The class is read literally, which is what [re] does when the
    joined expert identifiers are letters and digits. *)

Module Re.

Record Match := mkMatch { start : nat; group : string }.

(** Length of the longest run of non-whitespace characters heading [s]:
    what the greedy [\S*] takes first. *)
Fixpoint nonspace_run (s : string) : nat :=
  match s with
  | String c s' => if PyStr.is_space_re c then O else S (nonspace_run s')
  | EmptyString => O
  end.

(** [.tif] right after the first [k] characters of [r]. *)
Definition dot_tif_at (r : string) (k : nat) : bool :=
  match PyStr.drop k r with
  | String c r' => negb (Ascii.eqb c PyStr.newline) && String.prefix "tif" r'
  | EmptyString => false
  end.

(** Backtracking of [\S*]: the run gives back one character at a time
    until the rest of the pattern matches. *)
Fixpoint backtrack (r : string) (k : nat) : option nat :=
  if dot_tif_at r k then Some k
  else match k with
       | O => None
       | S k' => backtrack r k'
       end.

(** Length of the match that starts at the head of [s], if there is one. *)
Definition match_here (cls : string) (s : string) : option nat :=
  if String.prefix "img/tiff16_" s then
    match PyStr.drop 11 s with
    | String c (String "/" r) =>
        if PyStr.has_char c cls then
          k ← backtrack r (nonspace_run r); Some (13 + k + 4)%nat
        else None
    | _ => None
    end
  else None.

(** Leftmost matches without overlap; [pos] is the index of the head of
    [s] in the text and [skip] the number of characters of the previous
    match still to pass over. *)
Fixpoint scan (cls : string) (s : string) (pos skip : nat) : list Match :=
  match s with
  | EmptyString => []
  | String _ s' =>
      match skip with
      | S k => scan cls s' (S pos) k
      | O =>
          match match_here cls s with
          | Some n => mkMatch pos (PyStr.take n s) :: scan cls s' (S pos) (n - 1)
          | None => scan cls s' (S pos) 0
          end
      end
  end.

Definition finditer (cls : string) (text : string) : list Match :=
  scan cls text 0 0.

End Re.

(* ===================================================================== *)
(** ** [pathlib.Path] on POSIX *)
(* ===================================================================== *)

Module PyPath.

(** A pure POSIX path: its root ([""], ["/"] or ["//"]) and its
    components, without the empty and [.] components that [Path] drops. *)
Record Path := mkPath { root : string; parts : list string }.

Definition parse_root (s : string) : string :=
  if String.prefix "///" s then "/"
  else if String.prefix "//" s then "//"
  else if String.prefix "/" s then "/"
  else "".

Definition keeps (p : string) : bool :=
  negb (String.eqb p "" || String.eqb p ".").

(** [Path(s)]. *)
Definition of_string (s : string) : Path :=
  mkPath (parse_root s) (List.filter keeps (PyStr.split "/" s)).

(** [str(p)]. *)
Definition str (p : Path) : string :=
  match root p, parts p with
  | "", [] => "."
  | r, ps => r +:+ PyStr.join "/" ps
  end.

(** [p.parent]: the path itself when there is no component to drop. *)
Definition parent (p : Path) : Path :=
  mkPath (root p) (List.removelast (parts p)).

(** [p.name]. *)
Definition name (p : Path) : string := List.last (parts p) "".

(** The path and every proper ancestor that has a component. *)
Fixpoint lineage_from (r : string) (seen rest : list string) : list Path :=
  match rest with
  | [] => []
  | x :: rest' =>
      mkPath r (seen ++ [x])%list :: lineage_from r (seen ++ [x])%list rest'
  end.

Definition lineage (p : Path) : list Path := lineage_from (root p) [] (parts p).

End PyPath.

(* ===================================================================== *)
(** ** Exceptions, replies of the network, observable events *)
(* ===================================================================== *)

(** The exception classes the script can meet. The first six are those of
    [requests.exceptions]; [ReError] is [re.error]. *)
Inductive exn : Set :=
  | RequestException | HTTPError | ConnectionError
  | Timeout | ConnectTimeout | ReadTimeout
  | OSError | FileExistsError | FileNotFoundError
  | AssertionError | ValueError | TypeError | AttributeError
  | UnboundLocalError | ZeroDivisionError | ReError
  | KeyboardInterrupt | SystemExit.

#[global] Instance exn_eq_dec : EqDecision exn.
Proof. solve_decision. Defined.

(** [isinstance(e, Timeout)]. *)
Definition is_Timeout (e : exn) : bool :=
  match e with
  | Timeout | ConnectTimeout | ReadTimeout => true
  | _ => false
  end.

(** [isinstance(e, RequestException)]; [HTTPError] is one of them, so the
    handler [except (HTTPError, RequestException)] tests just this. *)
Definition is_RequestException (e : exn) : bool :=
  match e with
  | RequestException | HTTPError | ConnectionError
  | Timeout | ConnectTimeout | ReadTimeout => true
  | _ => false
  end.

(** [isinstance(e, Exception)]. *)
Definition is_Exception (e : exn) : bool :=
  match e with
  | KeyboardInterrupt | SystemExit => false
  | _ => true
  end.

(** [e.__class__.__name__]. *)
Definition class_name (e : exn) : string :=
  match e with
  | RequestException => "RequestException" | HTTPError => "HTTPError"
  | ConnectionError => "ConnectionError" | Timeout => "Timeout"
  | ConnectTimeout => "ConnectTimeout" | ReadTimeout => "ReadTimeout"
  | OSError => "OSError" | FileExistsError => "FileExistsError"
  | FileNotFoundError => "FileNotFoundError"
  | AssertionError => "AssertionError" | ValueError => "ValueError"
  | TypeError => "TypeError" | AttributeError => "AttributeError"
  | UnboundLocalError => "UnboundLocalError"
  | ZeroDivisionError => "ZeroDivisionError" | ReError => "error"
  | KeyboardInterrupt => "KeyboardInterrupt" | SystemExit => "SystemExit"
  end.

(** One [rq.get]. *)
Record request := mkRequest { url : string; timeout : Z; stream : bool }.

(** What the network does with it: a response of some status arrives, the
    call raises, or (streaming) the response breaks off after part of the
    body with an exception. *)
Inductive reply :=
  | Answers (status : Z) (body : string)
  | Raises (e : exn)
  | Breaks (partial : string) (e : exn).

(** A download task: the relative URL and the local path, as the pair that
    [download_image] appends to [incomplete_images]. *)
Definition task : Type := string * string.

(** Durations of [sleep]: [random.random() + 0.2] seconds, or a fixed number
    of milliseconds. *)
Inductive pause := Jitter | Millis (ms : N).

Inductive event :=
  | Stdout (text : string)
  | StdoutError (name : string) (e : exn)
  | Sleep (d : pause)
  | Get (r : request)
  | WriteFile (path : string) (content : string)
  | Mkdir (path : string)
  | PbarOpen (total : Z) | PbarUpdate | PbarClose
  | PoolOpen (workers : Z) | PoolShutdown
  | Submit (t : task).

#[global] Instance request_eq_dec : EqDecision request.
Proof. solve_decision. Defined.
#[global] Instance pause_eq_dec : EqDecision pause.
Proof. solve_decision. Defined.
#[global] Instance event_eq_dec : EqDecision event.
Proof. solve_decision. Defined.

(** The module-level table [status_code]: a [defaultdict] whose missing keys
    read as ["Not define in table"]. *)
Definition status_code : gmap Z string :=
  <[202 := "202: Accepted"]> (
  <[204 := "204: No Content"]> (
  <[400 := "400: Bad Request"]> (
  <[401 := "401: Unauthorized"]> (
  <[403 := "403: Forbidden"]> (
  <[404 := "404: Not Found"]> (
  <[409 := "409: Conflict"]> (
  <[429 := "429: Too Many Requests"]> ∅))))))).

Definition status_code_get (k : Z) : string :=
  default "Not define in table" (status_code !! k).

(* ===================================================================== *)
(** ** The world and the monad of the methods *)
(* ===================================================================== *)

(** References to list objects: a list can be reached through two names
    ([remains] and [self.incomplete_images]), so lists live in a heap. *)
Definition loc := nat.

(** A directory is known by its path string, as [str(Path(...))] prints it.
    A directory that is reached under two spellings (through a [..]
    component, a symbolic link, or a relative and an absolute path) is not
    told from two directories: the model is of a disk on which every
    directory has one name, and the theorems that need it say so in a
    hypothesis ([plain_path], [plain_disk]). *)
Record world := mkWorld {
  sent : list request;          (* requests made so far, latest first *)
  dirs : gset string;           (* directories that exist *)
  heap : list (list task);      (* the list objects *)
  incomplete_images : loc;      (* [self.incomplete_images] *)
  queue : list (nat * task);    (* work of the open pool not yet run *)
  futures_made : nat;
  log : list event              (* what happened, in order *)
}.

(** The outcome of a statement: it ends normally, an exception propagates,
    or the bound on loop iterations given to the model ran out. *)
Inductive result (A : Type) :=
  | Return (a : A)
  | Raise (e : exn)
  | OutOfFuel.
Arguments Return {A} a.
Arguments Raise {A} e.
Arguments OutOfFuel {A}.

Definition M (A : Type) : Type := world -> result A * world.

Definition ret {A} (a : A) : M A := fun w => (Return a, w).
Definition raise {A} (e : exn) : M A := fun w => (Raise e, w).
Definition out_of_fuel {A} : M A := fun w => (OutOfFuel, w).

Definition bind {A B} (m : M A) (k : A -> M B) : M B :=
  fun w =>
    match m w with
    | (Return a, w') => k a w'
    | (Raise e, w') => (Raise e, w')
    | (OutOfFuel, w') => (OutOfFuel, w')
    end.

Declare Scope py_scope.
Delimit Scope py_scope with py.
Notation "x <- m ;; k" := (bind m (fun x => k))
  (at level 100, m at next level, right associativity) : py_scope.
Notation "m ;; k" := (bind m (fun _ => k))
  (at level 100, right associativity) : py_scope.
Local Open Scope py_scope.

(** [try: m finally: after]; the clean-up of a [with] block. *)
Definition finally {A} (m : M A) (after : M unit) : M A :=
  fun w =>
    match m w with
    | (r, w') =>
        match after w' with
        | (Return _, w'') => (r, w'')
        | (Raise e, w'') => (Raise e, w'')
        | (OutOfFuel, w'') => (OutOfFuel, w'')
        end
    end.

(** [try: m except cls: handler], [catches] deciding [isinstance]. *)
Definition try_except {A} (m : M A) (catches : exn -> bool)
    (handler : exn -> M A) : M A :=
  fun w =>
    match m w with
    | (Raise e, w') => if catches e then handler e w' else (Raise e, w')
    | other => other
    end.

Definition emit (e : event) : M unit :=
  fun w => (Return tt, mkWorld (sent w) (dirs w) (heap w) (incomplete_images w)
                               (queue w) (futures_made w) (log w ++ [e])%list).

(** [print(s)] ends the line, [print(s, end="")] does not. *)
Definition print (s : string) : M unit := emit (Stdout (PyStr.line s)).
Definition print_noend (s : string) : M unit := emit (Stdout s).
Definition sleep (d : pause) : M unit := emit (Sleep d).

Definition read_list (l : loc) : M (list task) :=
  fun w => (Return (default [] (heap w !! l)), w).

(** [l.append(t)] on the list object at [l]. *)
Definition list_append (l : loc) (t : task) : M unit :=
  fun w => (Return tt,
            mkWorld (sent w) (dirs w)
                    (<[l := (default [] (heap w !! l) ++ [t])%list]> (heap w))
                    (incomplete_images w) (queue w) (futures_made w) (log w)).

(** A new list object holding [v]. *)
Definition new_list (v : list task) : M loc :=
  fun w => (Return (length (heap w)),
            mkWorld (sent w) (dirs w) (heap w ++ [v])%list (incomplete_images w)
                    (queue w) (futures_made w) (log w)).

Definition get_incomplete_images : M loc :=
  fun w => (Return (incomplete_images w), w).

Definition set_incomplete_images (l : loc) : M unit :=
  fun w => (Return tt, mkWorld (sent w) (dirs w) (heap w) l
                               (queue w) (futures_made w) (log w)).

(* ===================================================================== *)
(** ** The class [FivekCrawler] *)
(* ===================================================================== *)

(** The attributes set by [__init__] that no method assigns afterwards.
    [self.incomplete_images] is assigned by [main] and lives in the world. *)
Record FivekCrawler := mkCrawler {
  expert_list : list string;
  max_workers : Z;
  saving_dir : string;
  image_from : Z;
  image_to : Z
}.

Definition fivek_src : string := "https://data.csail.mit.edu/graphics/fivek".

(** The three assertions of [__init__]. *)
Definition init_asserts (image_from image_to : Z) : bool :=
  (image_from <? image_to)
  && ((0 <=? image_from) && (image_from <=? 5000))
  && ((0 <=? image_to) && (image_to <=? 5000)).

(** [FivekCrawler(expert_list, max_workers, saving_dir, image_from, image_to)]
    with [saving_dir] already a string. *)
Definition __init__ (expert_list : list string) (max_workers : Z)
    (saving_dir : string) (image_from image_to : Z) : result FivekCrawler :=
  if init_asserts image_from image_to
  then Return (mkCrawler expert_list max_workers saving_dir image_from image_to)
  else Raise AssertionError.

(** The world a new crawler starts in: [self.incomplete_images = []], no
    request made, nothing printed, the directories [d] on disk. *)
Definition fresh_world (d : gset string) : world :=
  mkWorld [] d [[]] 0%nat [] 0%nat [].

(** Values that the loop variable [url] of [main] can hold: Python decides
    at run time whether a method exists on them. *)
Inductive pyval :=
  | PStr (s : string)
  | PMatch (m : Re.Match).

(** [v.group()]: a method of match objects, not of strings. *)
Definition py_group (v : pyval) : M string :=
  match v with
  | PMatch m => ret (Re.group m)
  | PStr _ => raise AttributeError
  end.

(** [v.replace(old, new)]: a method of strings, not of match objects. The
    method is looked up before the argument [new] is evaluated. *)
Definition py_replace (v : pyval) (old : string) (new : M string) : M string :=
  match v with
  | PStr s => n <- new ;; ret (PyStr.replace old n s)
  | PMatch _ => raise AttributeError
  end.

(** Reading a local variable that no statement has assigned yet. *)
Definition local_var {A} (v : option A) : M A :=
  match v with
  | Some a => ret a
  | None => raise UnboundLocalError
  end.

(** What a generator gives when it is iterated: it stops, yields a value and
    goes on, or raises. Everything after the point the consumer stops at is
    never computed. *)
Inductive gen (A : Type) :=
  | Stop
  | Yield (a : A) (rest : gen A)
  | Throw (e : exn).
Arguments Stop {A}.
Arguments Yield {A} a rest.
Arguments Throw {A} e.

(** The values a consumer sees when it iterates to the end, and how the
    iteration ended. *)
Fixpoint yielded {A} (g : gen A) : list A :=
  match g with
  | Yield a rest => a :: yielded rest
  | _ => []
  end.

Fixpoint ending {A} (g : gen A) : option exn :=
  match g with
  | Stop => None
  | Yield _ rest => ending rest
  | Throw e => Some e
  end.

Section Crawler.

(** The network: the reply to a request, given the requests made before
    it (latest first). *)
Variable net : list request -> request -> reply.

Variable self : FivekCrawler.

(** [rq.get(url=..., timeout=..., stream=...)]. *)
Definition rq_get (r : request) : M reply :=
  fun w => (Return (net (sent w) r),
            mkWorld (r :: sent w) (dirs w) (heap w) (incomplete_images w)
                    (queue w) (futures_made w) (log w ++ [Get r])%list).

(** [folder_dir.mkdir(parents=True)]: [FileExistsError] when the directory
    is there, otherwise it and its missing ancestors are created. Whether
    it is there is asked of its path string (see [world]). *)
Definition mkdir_parents (p : PyPath.Path) : M unit :=
  fun w =>
    if bool_decide (PyPath.str p ∈ dirs w) then (Raise FileExistsError, w)
    else (Return tt,
          mkWorld (sent w)
                  (dirs w ∪ list_to_set (PyPath.str <$> PyPath.lineage p))
                  (heap w) (incomplete_images w) (queue w) (futures_made w)
                  (log w ++ [Mkdir (PyPath.str p)])%list).

Definition _create_expert_folder (expert_id : string) (saving_dir : string)
    : M PyPath.Path :=
  let folder_dir :=
    PyPath.of_string (saving_dir +:+ "/fivek_expert/tiff16_" +:+ expert_id) in
  try_except (mkdir_parents folder_dir)
    (fun e => bool_decide (e = FileExistsError))
    (fun _ => print ("target directory (" +:+ PyPath.str folder_dir
                     +:+ ") already exists.")) ;;
  ret folder_dir.

(** [None] stands for Python's [None], what a function returns when it
    falls off its end. *)
Definition _make_request (timeout : Z) : M (option string) :=
  sleep Jitter ;;
  web_rq <- rq_get (mkRequest fivek_src timeout false) ;;
  match web_rq with
  | Raises err | Breaks _ err =>
      if is_RequestException err then print (class_name err) ;; ret None
      else if is_Exception err then print (class_name err) ;; ret None
      else raise err
  | Answers status text =>
      if status =? 200 then print "request successed" ;; ret (Some text)
      else print ("Status_code: " +:+ status_code_get status) ;;
           raise SystemExit
  end.

(** [url.group().split("/")[-1][1:5]] and its [int]. *)
Definition index_slice (m : Re.Match) : string :=
  PyStr.slice 1 5 (PyStr.last_item (PyStr.split "/" (Re.group m))).

Definition url_index (m : Re.Match) : option Z := PyStr.int (index_slice m).

(** The loop [for url in urls] of the generator. *)
Fixpoint select (urls : list Re.Match) : gen pyval :=
  match urls with
  | [] => Stop
  | url :: urls' =>
      match url_index url with
      | None => Throw ValueError
      | Some i =>
          if (image_from self <=? i) && (i <=? image_to self)
          then Yield (PStr (Re.group url)) (select urls')
          else select urls'
      end
  end.

(** The body runs when the generator is first iterated. An empty class
    [[]] does not compile, and [re.finditer] refuses [None] with a
    [TypeError]. *)
Definition _get_expert_images_url (web_html : option string) : gen pyval :=
  let expert_list := PyStr.join_empty (expert_list self) in
  if String.eqb expert_list "" then Throw ReError
  else match web_html with
       | None => Throw TypeError
       | Some html => select (Re.finditer expert_list html)
       end.

Definition timeout_line (url : string) (retry : Z) : string :=
  String "013" (PyStr.rjust 7 (PyPath.name (PyPath.of_string url)))
  +:+ " : [Timeout] Retry(" +:+ pretty retry +:+ ")".

(** The [rq.get] of [download_image]: streaming, five seconds. *)
Definition image_request (url : string) : request :=
  mkRequest (fivek_src +:+ "/" +:+ url) 5 true.

Definition append_incomplete (url image_path : string) : M unit :=
  l <- get_incomplete_images ;; list_append l (url, image_path).

(** [open(image_path, "wb")] creates the file or empties it. The directory
    the file is to lie in has to exist (the root and the current directory
    always do), else [open] raises [FileNotFoundError]. Other failures of
    [open] and of [f.write] (no permission, a directory of that name, a
    full disk) are not modelled. *)
Definition can_open (d : gset string) (image_path : string) : bool :=
  let folder := PyPath.parent (PyPath.of_string image_path) in
  match PyPath.parts folder with
  | [] => true
  | _ :: _ => bool_decide (PyPath.str folder ∈ d)
  end.

Definition open_wb (image_path : string) : M unit :=
  fun w => if can_open (dirs w) image_path then (Return tt, w)
           else (Raise FileNotFoundError, w).

(** The loop [while retry < 3] of [download_image]; [fuel] bounds the
    number of iterations the model follows. *)
Fixpoint download_loop (fuel : nat) (retry : Z) (url image_path : string)
    : M unit :=
  if retry <? 3 then
    match fuel with
    | O => out_of_fuel
    | S fuel' =>
        let handle (err : exn) : M unit :=
          if is_Timeout err then
            let retry := retry + 1 in
            (if retry =? 3 then
               print (timeout_line url retry) ;;
               append_incomplete url image_path
             else print_noend (timeout_line url retry)) ;;
            download_loop fuel' retry url image_path
          else if is_RequestException err then
            emit (StdoutError (PyStr.rjust 7 (PyPath.name (PyPath.of_string url))) err) ;;
            append_incomplete url image_path
          else raise err in
        r <- rq_get (image_request url) ;;
        match r with
        | Answers _ body =>
            open_wb image_path ;;
            emit (WriteFile image_path body) ;;
            sleep (Millis 700)
        | Raises err => handle err
        | Breaks partial err =>
            open_wb image_path ;;
            emit (WriteFile image_path partial) ;; handle err
        end
    end
  else ret tt.

Definition download_image (url image_path : string) : M unit :=
  download_loop 3 0 url image_path.

(** *** The worker pool

    [ThreadPoolExecutor] is followed along one of its schedules: work
    items wait in [queue] in the order of submission and run, one after
    the other, at the first point where the main thread waits for them,
    which is [as_completed] on a future that is not done or the end of the
    [with] block ([shutdown(wait=True)]). An exception that leaves a worker
    stays in its future, which the script never asks for its result. *)

Definition submit (t : task) : M nat :=
  fun w =>
    let f := futures_made w in
    (Return f,
     mkWorld (sent w) (dirs w) (heap w) (incomplete_images w)
             (queue w ++ [(f, t)])%list (S f) (log w ++ [Submit t])%list).

Definition run_worker (t : task) : M unit :=
  fun w =>
    match download_image t.1 t.2 w with
    | (OutOfFuel, w') => (OutOfFuel, w')
    | (_, w') => (Return tt, w')
    end.

Fixpoint run_all (work : list (nat * task)) : M unit :=
  match work with
  | [] => ret tt
  | (_, t) :: work' => run_worker t ;; run_all work'
  end.

Definition drain : M unit :=
  fun w =>
    run_all (queue w)
      (mkWorld (sent w) (dirs w) (heap w) (incomplete_images w) []
               (futures_made w) (log w)).

Definition is_pending (w : world) (f : nat) : bool :=
  existsb (fun ft => Nat.eqb f ft.1) (queue w).

(** [as_completed(fs)]: each distinct future of [fs] once, after waiting
    for those that are not done. *)
Definition as_completed (fs : list nat) : M (list nat) :=
  fun w =>
    if existsb (is_pending w) fs then (drain ;; ret (remove_dups fs)) w
    else (Return (remove_dups fs), w).

(** [for future in ...: pbar.update(1)]; the loop variable is the local
    [future] of [main]. *)
Fixpoint pbar_updates (completed : list nat) (future : option nat)
    : M (option nat) :=
  match completed with
  | [] => ret future
  | f :: completed' => emit PbarUpdate ;; pbar_updates completed' (Some f)
  end.

(** [with ThreadPoolExecutor(max_workers=n) as saver: body]. *)
Definition with_pool {A} (n : Z) (body : M A) : M A :=
  if n <=? 0 then raise ValueError
  else emit (PoolOpen n) ;; finally body (drain ;; emit PoolShutdown).

(** [with tqdm(total=n) as pbar: body]. *)
Definition with_pbar {A} (n : Z) (body : M A) : M A :=
  emit (PbarOpen n) ;; finally body (emit PbarClose).

(** *** [main] *)

(** [for i in self.expert_list: folder_dir = ...]. *)
Fixpoint create_folders (experts : list string)
    (folder_dir : option PyPath.Path) : M (option PyPath.Path) :=
  match experts with
  | [] => ret folder_dir
  | i :: experts' =>
      d <- _create_expert_folder i (saving_dir self) ;;
      create_folders experts' (Some d)
  end.

(** [for i, url in enumerate(urls, start=1)]: the submission loop of the
    bulk phase. It returns the list [futures] and the local [future]. *)
Fixpoint bulk_submit (urls : gen pyval) (i : Z)
    (folder_dir : option PyPath.Path) (total_images : Z)
    (futures : list nat) (future : option nat)
    : M (list nat * option nat) :=
  match urls with
  | Stop => ret (futures, future)
  | Throw e => raise e
  | Yield url urls' =>
      image_path <- py_replace url "img"
                      (d <- local_var folder_dir ;;
                       ret (PyPath.str (PyPath.parent d))) ;;
      arg <- py_group url ;;
      fut <- submit (arg, image_path) ;;
      let futures := (futures ++ [fut])%list in
      if total_images =? 0 then raise ZeroDivisionError
      else if i mod total_images =? 0 then ret (futures, Some fut)
      else bulk_submit urls' (i + 1) folder_dir total_images futures (Some fut)
  end.

Definition bulk_phase (urls : gen pyval) (folder_dir : option PyPath.Path)
    (total_images : Z) : M (option nat) :=
  with_pbar total_images
    (with_pool (max_workers self)
       (fs <- bulk_submit urls 1 folder_dir total_images [] None ;;
        completed <- as_completed fs.1 ;;
        pbar_updates completed fs.2)).

(** [for i_url, i_path in remains] of a cleanup phase. No worker runs
    before the main thread waits, so the list object is not appended to
    while it is iterated and the loop sees the elements [remains] had
    when the phase began. *)
Fixpoint resubmit (remains : list task) (futures : list nat)
    (future : option nat) : M (list nat) :=
  match remains with
  | [] => ret futures
  | (i_url, i_path) :: remains' =>
      submit (i_url, i_path) ;;
      f <- local_var future ;;
      resubmit remains' (futures ++ [f])%list future
  end.

(** The body of [while remains:], one cleanup phase over the elements [rs]
    of [remains]; it returns the local [future]. *)
Definition cleanup_phase (rs : list task) (future : option nat)
    : M (option nat) :=
  with_pbar (Z.of_nat (length rs))
    (with_pool (max_workers self)
       (futures <- resubmit rs [] future ;;
        completed <- as_completed futures ;;
        pbar_updates completed future)).

(** [while remains:]; [fuel] bounds the number of phases the model
    follows. Line 214 makes [remains] the list [self.incomplete_images]
    itself. *)
Fixpoint cleanup (fuel : nat) (remains : loc) (future : option nat)
    : M unit :=
  rs <- read_list remains ;;
  match rs with
  | [] => ret tt
  | _ :: _ =>
      match fuel with
      | O => out_of_fuel
      | S fuel' =>
          future <- cleanup_phase rs future ;;
          remains <- get_incomplete_images ;;
          cleanup fuel' remains future
      end
  end.

Definition total_images : Z :=
  (image_to self - image_from self) * Z.of_nat (length (expert_list self)).

(** Lines 203 to 214: the Failure List is read and replaced by a new empty
    list once, before the loop. *)
Definition retry_failures (fuel : nat) (future : option nat) : M unit :=
  remains <- get_incomplete_images ;;
  fresh <- new_list [] ;;
  set_incomplete_images fresh ;;
  cleanup fuel remains future.

Definition main (fuel : nat) : M unit :=
  web_html <- _make_request 5 ;;
  let urls := _get_expert_images_url web_html in
  folder_dir <- create_folders (expert_list self) None ;;
  future <- bulk_phase urls folder_dir total_images ;;
  retry_failures fuel future.

End Crawler.

(* ===================================================================== *)
(** ** Vocabulary of the properties *)
(* ===================================================================== *)

(** An expert identifier as the class documents it: one letter or digit. *)
Definition is_expert_id (e : string) : bool :=
  match e with
  | String c EmptyString => PyStr.is_alnum c
  | _ => false
  end.

Definition expert_ids_ok (l : list string) : bool := forallb is_expert_id l.


(** The index is within the configured bounds, both included. *)
Definition in_range (self : FivekCrawler) (i : Z) : Prop :=
  image_from self <= i <= image_to self.

(** The Failure List: the list object [self.incomplete_images] refers to. *)
Definition failures (w : world) : list task :=
  default [] (heap w !! incomplete_images w).

(** The events of a computation that started in [w] and ended in [w']. *)
Definition new_events (w w' : world) : list event :=
  drop (length (log w)) (log w').

Definition is_sleep (e : event) : bool :=
  match e with Sleep _ => true | _ => false end.

(** The tasks handed to a pool, in the order of submission. *)
Fixpoint submitted (l : list event) : list task :=
  match l with
  | [] => []
  | Submit t :: l' => t :: submitted l'
  | _ :: l' => submitted l'
  end.

(** [self.incomplete_images] refers to a list object. *)
Definition valid_ref (w : world) : Prop :=
  is_Some (heap w !! incomplete_images w).

(** What an attempt comes to in [download_image]: the reply of the network
    or, when there is a response and the file cannot be opened, the
    [FileNotFoundError] of [open]. *)
Definition attempt (d : gset string) (image_path : string) (r : reply)
    : reply :=
  match r with
  | Raises _ => r
  | Answers _ _ | Breaks _ _ =>
      if can_open d image_path then r else Raises FileNotFoundError
  end.

(** The exception an attempt ends with, if any. *)
Definition raised (r : reply) : option exn :=
  match r with
  | Answers _ _ => None
  | Raises e | Breaks _ e => Some e
  end.

(** The attempt ends with a [Timeout]. *)
Definition times_out (r : reply) : bool :=
  match raised r with
  | Some e => is_Timeout e
  | None => false
  end.

(** The attempt ends with a request error that is not a timeout. *)
Definition fails_for_good (r : reply) : bool :=
  match raised r with
  | Some e => negb (is_Timeout e) && is_RequestException e
  | None => false
  end.

(** The attempt ends with an exception that no handler of the loop takes. *)
Definition escapes (r : reply) : option exn :=
  match raised r with
  | Some e => if is_RequestException e then None else Some e
  | None => None
  end.

Definition no_sleep (l : list event) : Prop :=
  Forall (fun e => is_sleep e = false) l.

(** [w'] is [w] after [n] more requests for [url], with the same
    directories, the same [self.incomplete_images], the same pool, and more
    output, none of it a [sleep]. *)
Record advanced (url : string) (n : nat) (w w' : world) : Prop := mkAdvanced {
  adv_sent : sent w' = (replicate n (image_request url) ++ sent w)%list;
  adv_dirs : dirs w' = dirs w;
  adv_ref : incomplete_images w' = incomplete_images w;
  adv_queue : queue w' = queue w;
  adv_futures : futures_made w' = futures_made w;
  adv_log : exists l, log w' = (log w ++ l)%list /\ no_sleep l
}.

(** [w'] is [w] with the same list objects and the same pool, and more
    output in which no task is submitted. *)
Definition quiet (w w' : world) : Prop :=
  heap w' = heap w
  /\ incomplete_images w' = incomplete_images w
  /\ queue w' = queue w
  /\ exists l, log w' = (log w ++ l)%list /\ submitted l = [].

(** The values of a generator are all strings. *)
Fixpoint strings_only (g : gen pyval) : Prop :=
  match g with
  | Yield (PStr _) rest => strings_only rest
  | Yield (PMatch _) _ => False
  | _ => True
  end.

Definition bulk_outcome (urls : gen pyval) (folder_dir : option PyPath.Path)
    : result (option nat) :=
  match urls with
  | Stop => Return None
  | Throw e => Raise e
  | Yield _ _ =>
      match folder_dir with
      | Some _ => Raise AttributeError
      | None => Raise UnboundLocalError
      end
  end.

(** The test of line 139 on a match: its index is read and lies within the
    bounds. *)
Definition selected (self : FivekCrawler) (m : Re.Match) : bool :=
  match url_index m with
  | Some i => (image_from self <=? i) && (i <=? image_to self)
  | None => false
  end.

(** The position in the text right after a match. *)
Definition match_end (m : Re.Match) : nat :=
  (Re.start m + String.length (Re.group m))%nat.

Definition not_space (c : ascii) : bool := negb (PyStr.is_space_re c).

(** What one invocation of [download_image] can have done, [n] being the
    number of its requests: nothing but the requests, or the requests and
    one pair appended to the Failure List. *)
Definition worker_effect (url image_path : string) (w : world) (n : nat)
    (r : result unit) (w' : world) : Prop :=
  sent w' = (replicate n (image_request url) ++ sent w)%list
  /\ dirs w' = dirs w
  /\ incomplete_images w' = incomplete_images w
  /\ queue w' = queue w
  /\ futures_made w' = futures_made w
  /\ r <> OutOfFuel
  /\ (heap w' = heap w
      \/ (r = Return tt
          /\ heap w' = <[incomplete_images w :=
                           (failures w ++ [(url, image_path)])%list]> (heap w))).

(** The keys of the table [status_code]. *)
Definition status_code_keys : list Z := [202; 204; 400; 401; 403; 404; 409; 429].

(** [Path(f"{saving_dir}/fivek_expert/tiff16_{expert_id}")], the folder of
    an expert. *)
Definition expert_folder (saving_dir expert_id : string) : PyPath.Path :=
  PyPath.of_string (saving_dir +:+ "/fivek_expert/tiff16_" +:+ expert_id).

(** A component that names a directory entry: not empty, not [.] or [..],
    and without a slash. *)
Definition plain_part (s : string) : bool :=
  negb (String.eqb s "" || String.eqb s "." || String.eqb s ".."
        || PyStr.has_char "/" s).

(** An absolute path that names its directory in the one way the disk
    knows it: it starts at the root [/] and goes down only. *)
Definition plain_path (p : PyPath.Path) : bool :=
  String.eqb (PyPath.root p) "/" && forallb plain_part (PyPath.parts p).

(** Every directory on disk is known under a plain absolute name. *)
Definition plain_disk (w : world) : Prop :=
  forall d, d ∈ dirs w -> exists p, plain_path p = true /\ d = PyPath.str p.

(** What the main thread does in a phase: it opens, advances and closes
    the progress bar, opens and shuts the pool down, and submits tasks.
    Every other event of a phase comes from a worker. *)
Definition pool_event (e : event) : bool :=
  match e with
  | Submit _ | PbarOpen _ | PbarUpdate | PbarClose | PoolOpen _
  | PoolShutdown => true
  | _ => false
  end.

Definition pool_events (l : list event) : list event :=
  List.filter pool_event l.

(** [w'] is [w] after some statements of a phase, in which the main thread
    did [trace] and workers for tasks among [pool] ran to their end. The
    Failure List is the same list object and has only grown, by tasks of
    [pool], each at most once and in the order of [pool]; every other list
    object, and the disk, are as they were. *)
Record ran (w w' : world) (trace : list event) (pool : list task) : Prop := mkRan {
  ran_ref : incomplete_images w' = incomplete_images w;
  ran_dirs : dirs w' = dirs w;
  ran_heap : length (heap w') = length (heap w);
  ran_others : forall l, l <> incomplete_images w -> heap w' !! l = heap w !! l;
  ran_failures : exists extra, failures w' = (failures w ++ extra)%list
                               /\ extra `sublist_of` pool;
  ran_log : exists l, log w' = (log w ++ l)%list /\ pool_events l = trace
}.

(** The main thread in one cleanup phase over [rs] with [future] bound. *)
Definition phase_trace (self : FivekCrawler) (rs : list task) : list event :=
  ([PbarOpen (Z.of_nat (length rs)); PoolOpen (max_workers self)]
   ++ (Submit <$> rs)
   ++ match rs with [] => [] | _ :: _ => [PbarUpdate] end
   ++ [PoolShutdown; PbarClose])%list.

(** Every request for the image of [t] gets a response, whatever was
    requested before. *)
Definition always_answered (net : list request -> request -> reply)
    (t : task) : Prop :=
  forall past, exists status body,
    net past (image_request t.1) = Answers status body.

(** The tasks of [l] that [ok] does not mark. *)
Definition unmarked (ok : task -> bool) (l : list task) : list task :=
  List.filter (fun t => negb (ok t)) l.

(** The world after lines 203 and 204: [self.incomplete_images] is a new
    empty list, the list it was stays where it is. *)
Definition swapped (w : world) : world :=
  mkWorld (sent w) (dirs w) (heap w ++ [[]])%list (length (heap w)) (queue w)
          (futures_made w) (log w).

(* ===================================================================== *)
(** ** Crawlers, networks and worlds used as examples *)
(* ===================================================================== *)

(** The crawler of the script's entry point, and a listing of two entries. *)
Definition script_crawler : FivekCrawler :=
  mkCrawler ["a"; "b"; "c"; "d"; "e"] 5 "/home/user" 289 300.

Definition two_entries : string :=
  "img/tiff16_a/a0289.tif img/tiff16_a/a0500.tif".

(** A crawler for expert [a] over the whole range of the dataset. *)
Definition crawler_a : FivekCrawler := mkCrawler ["a"] 5 "/home/user" 0 5000.



(** A network that is unreachable. *)
Definition net_unreachable : list request -> request -> reply :=
  fun _ _ => Raises ConnectionError.

(** A network that answers every request with status 200 and [body]. *)
Definition net_serving (body : string) : list request -> request -> reply :=
  fun _ _ => Answers 200 body.

Definition task_289 : task :=
  ("img/tiff16_a/a0289.tif", "/home/user/fivek_expert/tiff16_a/a0289.tif").

Definition task_290 : task :=
  ("img/tiff16_a/a0290.tif", "/home/user/fivek_expert/tiff16_a/a0290.tif").

Definition is_listing (r : request) : bool := String.eqb (url r) fivek_src.

(** The listing is served, with no entry in it, and every image request is
    refused. *)
Definition net_refusing : list request -> request -> reply :=
  fun _ r => if is_listing r then Answers 200 "" else Raises ConnectionError.

(** The same listing, and every image request times out. *)
Definition net_stalling : list request -> request -> reply :=
  fun _ r => if is_listing r then Answers 200 "" else Raises Timeout.

(** A crawler on which [download_image] was called for two images before
    [main]: both calls failed and left their task in the Failure List. *)
Definition after_two_downloads : world :=
  (download_image net_refusing task_290.1 task_290.2
     (download_image net_refusing task_289.1 task_289.2 (fresh_world ∅)).2).2.

(** A crawler on which [download_image] was called once before [main], every
    attempt timing out. *)
Definition after_one_download : world :=
  (download_image net_stalling task_289.1 task_289.2 (fresh_world ∅)).2.

(** The first two image requests are refused, every later one is served. *)
Definition net_recovering : list request -> request -> reply :=
  fun past _ =>
    match past with
    | _ :: _ :: _ => Answers 200 ""
    | _ => Raises ConnectionError
    end.

(** A new crawler once the folder of expert [a] is made. *)
Definition with_folder_a : world :=
  (_create_expert_folder "a" "/home/user" (fresh_world ∅)).2.

(** A server that has none of the images: every request is answered with
    status 404 and an error page. *)
Definition not_found_page : string := "<html>404 Not Found</html>".

Definition net_not_found : list request -> request -> reply :=
  fun _ _ => Answers 404 not_found_page.

(** After a bulk phase whose one task was refused: the folder is there, one
    request was made, the task is in the Failure List, future 0 is done. *)
Definition after_failed_bulk : world :=
  mkWorld [image_request task_289.1] (dirs with_folder_a) [[task_289]] 0%nat
          [] 1%nat [].


(* ===================================================================== *)
(** ** Properties of the URL extractor *)
(* ===================================================================== *)

Section StringFacts.

Lemma prefix_split (p s : string) :
  String.prefix p s = true -> s = p +:+ PyStr.drop (String.length p) s.
Proof.
  revert s; induction p as [|a p IH]; intros s H.
  - destruct s; reflexivity.
  - destruct s as [|b s]; [discriminate|].
    simpl in H. destruct (ascii_dec a b) as [->|]; [|discriminate].
    change (String b s = String b (p +:+ PyStr.drop (String.length p) s)).
    f_equal. exact (IH s H).
Qed.

Lemma has_char_join (c : ascii) (l : list string) :
  expert_ids_ok l = true ->
  PyStr.has_char c (PyStr.join_empty l) = true ->
  String c EmptyString ∈ l.
Proof.
  induction l as [|e l IH]; simpl; intros Hok Hc; [discriminate|].
  apply andb_prop in Hok as [He Hl].
  destruct e as [|d [|? ?]]; try discriminate.
  simpl in Hc. apply orb_prop in Hc as [Hc|Hc].
  - apply Ascii.eqb_eq in Hc as ->. apply list_elem_of_here.
  - apply list_elem_of_further. exact (IH Hl Hc).
Qed.





End StringFacts.

Section ScanFacts.

Variable cls : string.

Lemma match_here_inv (s : string) (n : nat) :
  Re.match_here cls s = Some n ->
  exists c r k,
    s = "img/tiff16_" +:+ String c (String "/" r)
    /\ PyStr.has_char c cls = true
    /\ Re.backtrack r (Re.nonspace_run r) = Some k
    /\ n = (13 + k + 4)%nat.
Proof.
  unfold Re.match_here. intros H.
  destruct (String.prefix "img/tiff16_" s) eqn:Hp; [|discriminate].
  apply prefix_split in Hp. simpl String.length in Hp.
  destruct (PyStr.drop 11 s) as [|c [|d r]] eqn:Hd; try discriminate.
  destruct (Ascii.eqb d "/") eqn:Hslash.
  - apply Ascii.eqb_eq in Hslash as ->.
    destruct (PyStr.has_char c cls) eqn:Hc; [|discriminate].
    destruct (Re.backtrack r (Re.nonspace_run r)) as [k|] eqn:Hb;
      [|discriminate].
    simpl in H. injection H as <-. exists c, r, k. auto.
  - exfalso. destruct d as [[] [] [] [] [] [] [] []];
      first [discriminate Hslash | discriminate H].
Qed.

(** The character of the class sits at index 11 of every match. *)
Lemma match_here_expert (s : string) (n : nat) :
  Re.match_here cls s = Some n ->
  exists c, String.get 11 (PyStr.take n s) = Some c
            /\ PyStr.has_char c cls = true.
Proof.
  intros H. destruct (match_here_inv s n H) as (c & r & k & -> & Hc & _ & ->).
  exists c. split; [reflexivity | exact Hc].
Qed.

Lemma take_length_le (n : nat) (s : string) :
  PyStr.take (String.length (PyStr.take n s)) s = PyStr.take n s.
Proof.
  revert s; induction n as [|n IH]; intros [|c s]; simpl; try reflexivity.
  f_equal. apply IH.
Qed.

(** Every match reported from position [pos] on starts at or after the
    characters still to skip, and is the text found there. *)
Lemma scan_spec (s : string) (pos skip : nat) (m : Re.Match) :
  m ∈ Re.scan cls s pos skip ->
  (pos + skip <= Re.start m)%nat
  /\ exists n, Re.match_here cls (PyStr.drop (Re.start m - pos) s) = Some n
               /\ Re.group m = PyStr.take n (PyStr.drop (Re.start m - pos) s).
Proof.
  revert pos skip; induction s as [|c s IH]; intros pos skip Hm; simpl in Hm.
  - apply elem_of_nil in Hm as [].
  - assert (Hlater : forall k, m ∈ Re.scan cls s (S pos) k ->
              (S pos + k <= Re.start m)%nat
              /\ exists n,
                   Re.match_here cls (PyStr.drop (Re.start m - pos) (String c s)) = Some n
                   /\ Re.group m = PyStr.take n (PyStr.drop (Re.start m - pos) (String c s))).
    { intros k Hk. destruct (IH _ _ Hk) as (Hle & n & Hn & Hg).
      split; [exact Hle|]. exists n.
      replace (Re.start m - pos)%nat with (S (Re.start m - S pos)) by lia.
      simpl. auto. }
    destruct skip as [|k].
    + destruct (Re.match_here cls (String c s)) as [n|] eqn:Hh.
      * apply elem_of_cons in Hm as [->|Hm].
        -- simpl. split; [lia|]. exists n. rewrite Nat.sub_diag. auto.
        -- destruct (Hlater _ Hm) as (Hle & Hex). split; [lia | exact Hex].
      * destruct (Hlater _ Hm) as (Hle & Hex). split; [lia | exact Hex].
    + destruct (Hlater _ Hm) as (Hle & Hex). split; [lia | exact Hex].
Qed.

(** Matches are reported from left to right. *)
Lemma scan_sorted (s : string) (pos skip : nat) :
  StronglySorted (fun a b => (Re.start a < Re.start b)%nat)
                 (Re.scan cls s pos skip).
Proof.
  revert pos skip; induction s as [|c s IH]; intros pos skip; simpl.
  - constructor.
  - destruct skip as [|k]; [|apply IH].
    destruct (Re.match_here cls (String c s)) as [n|]; [|apply IH].
    constructor; [apply IH|].
    apply Forall_forall. intros m Hm.
    apply scan_spec in Hm as [Hle _]. simpl. lia.
Qed.

End ScanFacts.

Section SelectFacts.

Variable self : FivekCrawler.

Lemma select_yielded_inv (ms : list Re.Match) (p : pyval) :
  p ∈ yielded (select self ms) ->
  exists m i, m ∈ ms /\ p = PStr (Re.group m)
              /\ url_index m = Some i /\ in_range self i.
Proof.
  induction ms as [|m ms IH]; simpl; intros Hp.
  - apply elem_of_nil in Hp as [].
  - assert (Hrest : p ∈ yielded (select self ms) ->
              exists m' i, m' ∈ m :: ms /\ p = PStr (Re.group m')
                           /\ url_index m' = Some i /\ in_range self i).
    { intros H. destruct (IH H) as (m' & i & Hin & Hrest).
      exists m', i. split; [apply list_elem_of_further, Hin | exact Hrest]. }
    destruct (url_index m) as [i|] eqn:Hi; simpl in Hp.
    + destruct ((image_from self <=? i) && (i <=? image_to self)) eqn:Hr.
      * simpl in Hp. apply elem_of_cons in Hp as [->|Hp]; [|auto].
        exists m, i. apply andb_prop in Hr as [H1 H2].
        repeat split; [apply list_elem_of_here | exact Hi | lia | lia].
      * auto.
    + apply elem_of_nil in Hp as [].
Qed.

Lemma select_sublist (ms : list Re.Match) :
  exists ms', ms' `sublist_of` ms
              /\ yielded (select self ms) = (fun m => PStr (Re.group m)) <$> ms'.
Proof.
  induction ms as [|m ms (ms' & Hsub & Hy)]; simpl.
  - exists []. split; [constructor | reflexivity].
  - destruct (url_index m) as [i|].
    + destruct ((image_from self <=? i) && (i <=? image_to self)).
      * exists (m :: ms'). split; [by constructor | simpl; by rewrite Hy].
      * exists ms'. split; [by constructor | exact Hy].
    + exists []. split; [apply sublist_nil_l | reflexivity].
Qed.




End SelectFacts.

(** C6. Whatever the listing text, the expert identifiers (single letters or
    digits) and the bounds: every path the URL extractor yields is a match of
    the pattern whose index, the [int] of characters 1 to 4 of its file name,
    lies between [image_from] and [image_to] inclusive, and whose expert
    character (index 11) is a configured identifier; the yielded paths are a
    subsequence of the matches, which [finditer] reports by increasing
    position in the text, each being the text found at its position. With
    bounds 289 and 300, [img/tiff16_a/a0500.tif] is never yielded, and from a
    listing holding it and [img/tiff16_a/a0289.tif] only the latter is. *)
Theorem extractor_yields_in_range_in_order
    (self : FivekCrawler) (web_html : string) :
  expert_ids_ok (expert_list self) = true ->
  let matches := Re.finditer (PyStr.join_empty (expert_list self)) web_html in
  let urls := _get_expert_images_url self (Some web_html) in
  (forall p, p ∈ yielded urls ->
     exists m i c,
       m ∈ matches /\ p = PStr (Re.group m)
       /\ url_index m = Some i /\ image_from self <= i <= image_to self
       /\ String.get 11 (Re.group m) = Some c
       /\ String c "" ∈ expert_list self)
  /\ (exists ms, ms `sublist_of` matches
                 /\ yielded urls = (fun m => PStr (Re.group m)) <$> ms)
  /\ StronglySorted (fun a b => (Re.start a < Re.start b)%nat) matches
  /\ (forall m, m ∈ matches ->
        PyStr.take (String.length (Re.group m))
                   (PyStr.drop (Re.start m) web_html) = Re.group m)
  /\ (image_from self = 289 -> image_to self = 300 ->
        PStr "img/tiff16_a/a0500.tif" ∉ yielded urls)
  /\ yielded (_get_expert_images_url script_crawler (Some two_entries))
     = [PStr "img/tiff16_a/a0289.tif"].
Proof.
  intros Hok matches urls.
  assert (Hy : forall p, p ∈ yielded urls ->
            exists m i, m ∈ matches /\ p = PStr (Re.group m)
                        /\ url_index m = Some i /\ in_range self i).
  { subst urls. unfold _get_expert_images_url. intros p.
    destruct (String.eqb _ ""); [intros H; apply elem_of_nil in H as []|].
    apply select_yielded_inv. }
  split; [|split; [|split; [|split; [|split]]]].
  - intros p Hp. destruct (Hy p Hp) as (m & i & Hm & -> & Hi & Hr).
    destruct (scan_spec _ _ _ _ _ Hm) as (_ & n & Hn & Hg).
    destruct (match_here_expert _ _ _ Hn) as (c & Hc & Hcls).
    exists m, i, c. rewrite Hg.
    repeat split; try assumption; try apply Hr.
    by apply has_char_join.
  - subst urls. unfold _get_expert_images_url.
    destruct (String.eqb _ "").
    + exists []. split; [apply sublist_nil_l | reflexivity].
    + apply select_sublist.
  - apply scan_sorted.
  - intros m Hm. destruct (scan_spec _ _ _ _ _ Hm) as (_ & n & _ & Hg).
    rewrite Nat.sub_0_r in Hg. rewrite Hg. apply take_length_le.
  - intros Hfrom Hto Hp.
    destruct (Hy _ Hp) as (m & i & _ & [= Hg] & Hi & Hr).
    unfold url_index, index_slice in Hi. rewrite <- Hg in Hi.
    vm_compute in Hi. injection Hi as <-.
    unfold in_range in Hr. lia.
  - reflexivity.
Qed.

Lemma extractor_yields_in_range_in_order_witness :
  expert_ids_ok (expert_list script_crawler) = true
  /\ PStr "img/tiff16_a/a0500.tif"
     ∉ yielded (_get_expert_images_url script_crawler (Some two_entries)).
Proof.
  split; [reflexivity|].
  refine (proj1 (proj2 (proj2 (proj2 (proj2
            (extractor_yields_in_range_in_order script_crawler two_entries _)))))
          _ _); reflexivity.
Defined.




(* ===================================================================== *)
(** ** Directory preparation *)
(* ===================================================================== *)

Section PathFacts.

Lemma split_nonempty (sep : ascii) (s : string) :
  exists h t, PyStr.split sep s = h :: t.
Proof.
  destruct s as [|c s]; simpl; [by eexists _, _|].
  destruct (Ascii.eqb c sep); [by eexists _, _|].
  destruct (PyStr.split sep s); by eexists _, _.
Qed.

(** Splitting at a separator splits the text on either side of it. *)
Lemma split_app_sep (sep : ascii) (a b : string) :
  PyStr.split sep (a +:+ String sep b)
  = (PyStr.split sep a ++ PyStr.split sep b)%list.
Proof.
  induction a as [|c a IH].
  - change (PyStr.split sep (String sep b)
            = (EmptyString :: PyStr.split sep b)).
    simpl. by rewrite Ascii.eqb_refl.
  - change (String c a +:+ String sep b) with (String c (a +:+ String sep b)).
    simpl. destruct (Ascii.eqb c sep); rewrite IH; [reflexivity|].
    destruct (split_nonempty sep a) as (h & t & ->). reflexivity.
Qed.

Lemma lineage_from_last (r : string) (seen rest : list string) :
  rest <> [] ->
  PyPath.mkPath r (seen ++ rest)%list ∈ PyPath.lineage_from r seen rest.
Proof.
  revert seen; induction rest as [|x rest IH]; intros seen Hne; [done|].
  simpl. destruct rest as [|y rest].
  - apply list_elem_of_here.
  - apply list_elem_of_further.
    replace (seen ++ x :: y :: rest)%list
      with ((seen ++ [x]) ++ y :: rest)%list by (by rewrite <- app_assoc).
    by apply IH.
Qed.

Lemma lineage_self (p : PyPath.Path) :
  PyPath.parts p <> [] -> p ∈ PyPath.lineage p.
Proof.
  intros H. destruct p as [r ps]. unfold PyPath.lineage. simpl in *.
  exact (lineage_from_last r [] ps H).
Qed.

(** The folder of an expert always has a component: [fivek_expert]. *)
Lemma expert_folder_parts (saving_dir expert_id : string) :
  PyPath.parts (PyPath.of_string
                  (saving_dir +:+ "/fivek_expert/tiff16_" +:+ expert_id)) <> [].
Proof.
  unfold PyPath.of_string. simpl PyPath.parts.
  change (saving_dir +:+ "/fivek_expert/tiff16_" +:+ expert_id)
    with (saving_dir +:+ String "/"
            ("fivek_expert" +:+ String "/" ("tiff16_" +:+ expert_id))).
  rewrite !split_app_sep, !List.filter_app.
  change (List.filter PyPath.keeps (PyStr.split "/" "fivek_expert"))
    with ["fivek_expert"].
  intros H. apply app_eq_nil in H as [_ H]. discriminate.
Qed.

End PathFacts.

(** C8. Directory preparation is idempotent. Whatever the base path, the
    expert identifier and the directories already on disk, two calls in a
    row both return normally with the same path,
    [Path(base/fivek_expert/tiff16_<expert>)]; after the first call the
    directory exists, and the second call changes nothing on disk and only
    prints the notice that the directory already exists. *)
Theorem create_expert_folder_idempotent
    (expert_id saving_dir : string) (w : world) :
  let folder_dir :=
    PyPath.of_string (saving_dir +:+ "/fivek_expert/tiff16_" +:+ expert_id) in
  let first := _create_expert_folder expert_id saving_dir w in
  let second := _create_expert_folder expert_id saving_dir first.2 in
  first.1 = Return folder_dir
  /\ second.1 = Return folder_dir
  /\ PyPath.str folder_dir ∈ dirs first.2
  /\ dirs second.2 = dirs first.2
  /\ new_events first.2 second.2
     = [Stdout (PyStr.line ("target directory (" +:+ PyPath.str folder_dir
                            +:+ ") already exists."))]
  /\ PyPath.str (PyPath.of_string "/home/user/fivek_expert/tiff16_a")
     = "/home/user/fivek_expert/tiff16_a".
Proof.
  intros folder_dir first second.
  assert (Hself : PyPath.str folder_dir
                  ∈ (PyPath.str <$> PyPath.lineage folder_dir)).
  { apply list_elem_of_fmap_2, lineage_self, expert_folder_parts. }
  assert (Hfirst : first.1 = Return folder_dir
                   /\ PyPath.str folder_dir ∈ dirs first.2).
  { subst first. unfold _create_expert_folder, bind, try_except, mkdir_parents.
    fold folder_dir. case_bool_decide as Hin; simpl.
    - split; [reflexivity | exact Hin].
    - split; [reflexivity|].
      apply elem_of_union. right. apply elem_of_list_to_set. exact Hself. }
  destruct Hfirst as [Hr1 Hd1].
  assert (Hsecond : second.1 = Return folder_dir
                    /\ dirs second.2 = dirs first.2
                    /\ log second.2
                       = (log first.2
                          ++ [Stdout (PyStr.line
                                        ("target directory ("
                                         +:+ PyPath.str folder_dir
                                         +:+ ") already exists."))])%list).
  { subst second. unfold _create_expert_folder, bind, try_except, mkdir_parents.
    fold folder_dir. rewrite (bool_decide_eq_true_2 _ Hd1). simpl. auto. }
  destruct Hsecond as (Hr2 & Hd2 & Hl2).
  repeat split; try assumption.
  unfold new_events. rewrite Hl2. by rewrite drop_app_length.
Qed.

(* ===================================================================== *)
(** ** The download worker *)
(* ===================================================================== *)

Section WorkerFacts.

Variable net : list request -> request -> reply.
Variables url image_path : string.

Local Abbreviation req := (image_request url).
Local Abbreviation loop fuel retry := (download_loop net fuel retry url image_path).
Local Abbreviation seen w :=
  (attempt (dirs w) image_path (net (sent w) req)).

Lemma advanced_refl (w : world) : advanced url 0 w w.
Proof.
  constructor; try reflexivity.
  exists []. split; [by rewrite app_nil_r | constructor].
Qed.

Lemma replicate_shift {A} (n : nat) (x : A) (l : list A) :
  (replicate n x ++ x :: l = replicate (S n) x ++ l)%list.
Proof. induction n as [|n IH]; simpl; [reflexivity | by rewrite IH]. Qed.

Lemma advanced_trans (n m : nat) (w w1 w2 : world) :
  advanced url n w w1 -> advanced url m w1 w2 ->
  advanced url (n + m) w w2.
Proof.
  intros [Hs Hd Hr Hq Hf (l & Hl & Hn)] [Hs' Hd' Hr' Hq' Hf' (l' & Hl' & Hn')].
  constructor; try congruence.
  - rewrite Hs', Hs, app_assoc, <- replicate_add. f_equal. f_equal. lia.
  - exists (l ++ l')%list. split; [by rewrite Hl', Hl, app_assoc|].
    by apply Forall_app.
Qed.

Lemma new_events_app (w w' : world) (l : list event) :
  log w' = (log w ++ l)%list -> new_events w w' = l.
Proof. intros H. unfold new_events. by rewrite H, drop_app_length. Qed.

Ltac worker_step :=
  unfold bind, print, print_noend, sleep, emit, append_incomplete,
    get_incomplete_images, list_append, ret, raise;
  simpl.

Ltac advanced_by_log :=
  constructor; simpl; try reflexivity;
  eexists; (split; [rewrite <- ?app_assoc; reflexivity|]);
  repeat constructor.

(** A timeout before the third: the loop goes round again at once. *)
Lemma loop_timeout_again (fuel : nat) (retry : Z) (w : world) :
  retry < 2 ->
  times_out (seen w) = true ->
  exists w1, loop (S fuel) retry w = loop fuel (retry + 1) w1
             /\ advanced url 1 w w1 /\ heap w1 = heap w.
Proof.
  intros Hretry Hto. unfold times_out, raised, attempt in Hto.
  simpl download_loop.
  replace (retry <? 3) with true by (symmetry; apply Z.ltb_lt; lia).
  unfold bind at 1. unfold rq_get at 1.
  destruct (net (sent w) req) as [st body|e|part e];
    [by destruct (can_open (dirs w) image_path) | |
     unfold bind at 1; unfold open_wb at 1; simpl dirs;
     destruct (can_open (dirs w) image_path); [|discriminate]];
    rewrite Hto;
    replace (retry + 1 =? 3) with false by (symmetry; apply Z.eqb_neq; lia);
    worker_step;
    eexists; (split; [reflexivity|]); (split; [|reflexivity]);
    advanced_by_log.
Qed.

(** The third timeout: the task is recorded and the loop ends. *)
Lemma loop_third_timeout (fuel : nat) (w : world) :
  times_out (seen w) = true ->
  exists w1, loop (S fuel) 2 w = (Return tt, w1)
             /\ advanced url 1 w w1
             /\ heap w1 = <[incomplete_images w :=
                              (failures w ++ [(url, image_path)])%list]> (heap w).
Proof.
  intros Hto. unfold times_out, raised, attempt in Hto.
  simpl download_loop. unfold bind at 1. unfold rq_get at 1.
  destruct (net (sent w) req) as [st body|e|part e];
    [by destruct (can_open (dirs w) image_path) | |
     unfold bind at 1; unfold open_wb at 1; simpl dirs;
     destruct (can_open (dirs w) image_path); [|discriminate]];
    rewrite Hto; worker_step; destruct fuel; simpl;
    eexists; (split; [reflexivity|]); (split; [|reflexivity]);
    advanced_by_log.
Qed.

(** A request error that is no timeout: recorded at once, the loop ends. *)
Lemma loop_fails_for_good (fuel : nat) (retry : Z) (w : world) :
  retry < 3 ->
  fails_for_good (seen w) = true ->
  exists w1, loop (S fuel) retry w = (Return tt, w1)
             /\ advanced url 1 w w1
             /\ heap w1 = <[incomplete_images w :=
                              (failures w ++ [(url, image_path)])%list]> (heap w).
Proof.
  intros Hretry Hf. unfold fails_for_good, raised, attempt in Hf.
  simpl download_loop.
  replace (retry <? 3) with true by (symmetry; apply Z.ltb_lt; lia).
  unfold bind at 1. unfold rq_get at 1.
  destruct (net (sent w) req) as [st body|e|part e];
    [by destruct (can_open (dirs w) image_path) | |
     unfold bind at 1; unfold open_wb at 1; simpl dirs;
     destruct (can_open (dirs w) image_path); [|discriminate]];
    apply andb_prop in Hf as [Hnt Hre]; apply negb_true_iff in Hnt;
    rewrite Hnt, Hre; worker_step;
    eexists; (split; [reflexivity|]); (split; [|reflexivity]);
    advanced_by_log.
Qed.

(** A response, and a file that can be opened: the body is written, the
    worker sleeps 0.7 s and ends, whatever the status of the response. *)
Lemma loop_answers (fuel : nat) (retry : Z) (w : world) (st : Z) (body : string) :
  retry < 3 ->
  seen w = Answers st body ->
  exists w1, loop (S fuel) retry w = (Return tt, w1)
             /\ sent w1 = req :: sent w
             /\ heap w1 = heap w
             /\ incomplete_images w1 = incomplete_images w
             /\ log w1 = (log w ++ [Get req; WriteFile image_path body;
                                    Sleep (Millis 700)])%list.
Proof.
  intros Hretry Ha. unfold attempt in Ha. simpl download_loop.
  replace (retry <? 3) with true by (symmetry; apply Z.ltb_lt; lia).
  unfold bind at 1. unfold rq_get at 1.
  destruct (net (sent w) req) as [st' body'|e|part e]; [|discriminate|];
    (destruct (can_open (dirs w) image_path) eqn:Hopen; [|discriminate]);
    [|discriminate].
  injection Ha as -> ->.
  unfold bind at 1. unfold open_wb at 1. simpl dirs. rewrite Hopen.
  worker_step.
  eexists. split; [reflexivity|]. simpl.
  repeat split. by rewrite <- !app_assoc.
Qed.

(** Any other exception leaves the worker: one the request raised, or the
    [FileNotFoundError] of [open]. *)
Lemma loop_escapes (fuel : nat) (retry : Z) (w : world) (e : exn) :
  retry < 3 ->
  escapes (seen w) = Some e ->
  exists w1, loop (S fuel) retry w = (Raise e, w1)
             /\ advanced url 1 w w1 /\ heap w1 = heap w.
Proof.
  intros Hretry He. unfold escapes, raised, attempt in He.
  simpl download_loop.
  replace (retry <? 3) with true by (symmetry; apply Z.ltb_lt; lia).
  unfold bind at 1. unfold rq_get at 1.
  destruct (net (sent w) req) as [st body|e'|part e'].
  - unfold bind at 1. unfold open_wb at 1. simpl dirs.
    destruct (can_open (dirs w) image_path); [discriminate|].
    injection He as <-. worker_step.
    eexists. split; [reflexivity|]. split; [|reflexivity]. advanced_by_log.
  - destruct (is_RequestException e') eqn:Hre; try discriminate.
    injection He as ->.
    assert (Hnt : is_Timeout e = false) by (by destruct e).
    rewrite Hnt. worker_step.
    eexists. split; [reflexivity|]. split; [|reflexivity]. advanced_by_log.
  - unfold bind at 1. unfold open_wb at 1. simpl dirs.
    destruct (can_open (dirs w) image_path).
    + destruct (is_RequestException e') eqn:Hre; try discriminate.
      injection He as ->.
      assert (Hnt : is_Timeout e = false) by (by destruct e).
      rewrite Hnt. worker_step.
      eexists. split; [reflexivity|]. split; [|reflexivity]. advanced_by_log.
    + injection He as <-. worker_step.
      eexists. split; [reflexivity|]. split; [|reflexivity]. advanced_by_log.
Qed.

(** [k] timeouts in a row that do not bring [retry] to 3: [k] requests,
    nothing recorded, nothing slept, and the loop is at its next turn. *)
Lemma loop_timeouts (k : nat) :
  forall (fuel : nat) (retry : Z) (w : world),
    retry + Z.of_nat k <= 2 ->
    (forall j, (j < k)%nat ->
       times_out (attempt (dirs w) image_path
                    (net (replicate j req ++ sent w)%list req)) = true) ->
    exists w', loop (k + fuel) retry w = loop fuel (retry + Z.of_nat k) w'
               /\ advanced url k w w' /\ heap w' = heap w.
Proof.
  induction k as [|k IH]; intros fuel retry w Hretry Hto.
  - exists w. replace (retry + Z.of_nat 0) with retry by lia.
    split; [reflexivity|]. split; [apply advanced_refl | reflexivity].
  - destruct (loop_timeout_again (k + fuel) retry w) as (w1 & Hstep & Hadv & Hheap);
      [lia | exact (Hto 0%nat ltac:(lia)) |].
    destruct (IH fuel (retry + 1) w1) as (w' & Hrest & Hadv' & Hheap').
    + lia.
    + intros j Hj. rewrite (adv_sent _ _ _ _ Hadv), (adv_dirs _ _ _ _ Hadv).
      simpl. rewrite replicate_shift. apply Hto. lia.
    + exists w'. split; [|split].
      * simpl plus. rewrite Hstep, Hrest. f_equal. lia.
      * exact (advanced_trans 1 k w w1 w' Hadv Hadv').
      * congruence.
Qed.

(** An attempt ends in exactly one of four ways. *)
Lemma reply_cases (r : reply) :
  times_out r = true \/ fails_for_good r = true
  \/ (exists st body, r = Answers st body)
  \/ (exists e, escapes r = Some e).
Proof.
  unfold times_out, fails_for_good, escapes.
  destruct r as [st body|e|part e]; simpl; [by eauto 6| |];
    destruct (is_Timeout e) eqn:Ht; auto;
    destruct (is_RequestException e) eqn:Hr; simpl; eauto.
Qed.

(** When the network has a response, the worker records nothing: the body
    is written, or [open] raises. *)
Lemma loop_answered_heap (fuel : nat) (retry : Z) (w : world)
    (st : Z) (body : string) :
  net (sent w) req = Answers st body ->
  heap (loop fuel retry w).2 = heap w.
Proof.
  intros Ha. destruct fuel as [|fuel]; simpl download_loop;
    destruct (retry <? 3) eqn:Hretry; try reflexivity.
  apply Z.ltb_lt in Hretry.
  destruct (can_open (dirs w) image_path) eqn:Hopen.
  - destruct (loop_answers fuel retry w st body Hretry) as (w1 & Hw1 & _ & Hh & _);
      [unfold attempt; by rewrite Ha, Hopen|].
    simpl download_loop in Hw1.
    replace (retry <? 3) with true in Hw1 by (symmetry; apply Z.ltb_lt; lia).
    by rewrite Hw1.
  - destruct (loop_escapes fuel retry w FileNotFoundError Hretry)
      as (w1 & Hw1 & _ & Hh); [unfold attempt; by rewrite Ha, Hopen|].
    simpl download_loop in Hw1.
    replace (retry <? 3) with true in Hw1 by (symmetry; apply Z.ltb_lt; lia).
    by rewrite Hw1.
Qed.

End WorkerFacts.

Lemma failures_recorded (w w1 : world) (t : task) :
  valid_ref w ->
  incomplete_images w1 = incomplete_images w ->
  heap w1 = <[incomplete_images w := (failures w ++ [t])%list]> (heap w) ->
  failures w1 = (failures w ++ [t])%list.
Proof.
  intros Hv Hr Hh. unfold failures at 1. rewrite Hr, Hh.
  rewrite list_lookup_insert_eq; [reflexivity|].
  by apply lookup_lt_is_Some.
Qed.

Lemma failures_kept (w w1 : world) :
  incomplete_images w1 = incomplete_images w -> heap w1 = heap w ->
  failures w1 = failures w.
Proof. intros Hr Hh. unfold failures. by rewrite Hr, Hh. Qed.

(** What one invocation of [download_image] does, by what its attempts
    come to, for any network, URL, path and starting world. Let the first
    [k < 3] attempts time out. If attempt [k+1] is the third timeout, or
    ends with a request error that is not a timeout, the worker returns
    having appended [(url, image_path)] to the Failure List exactly once,
    after exactly [k+1] requests and without any [sleep]. If attempt [k+1]
    gets a response, of any status, and the file can be opened, nothing is
    recorded and the only [sleep] is the 0.7 s after the body is written;
    an exception of another kind, the [FileNotFoundError] of [open] among
    them, leaves the worker with nothing recorded. *)
Lemma download_image_retry_policy
    (net : list request -> request -> reply)
    (url image_path : string) (w : world) :
  valid_ref w ->
  let req := image_request url in
  let outcome (k : nat) :=
    attempt (dirs w) image_path (net (replicate k req ++ sent w)%list req) in
  let run := download_image net url image_path w in
  forall k, (k < 3)%nat ->
    (forall j, (j < k)%nat -> times_out (outcome j) = true) ->
    ((k = 2%nat /\ times_out (outcome k) = true)
     \/ fails_for_good (outcome k) = true ->
       run.1 = Return tt
       /\ failures run.2 = (failures w ++ [(url, image_path)])%list
       /\ sent run.2 = (replicate (S k) req ++ sent w)%list
       /\ no_sleep (new_events w run.2))
    /\ (forall st body, outcome k = Answers st body ->
          run.1 = Return tt
          /\ failures run.2 = failures w
          /\ sent run.2 = (replicate (S k) req ++ sent w)%list
          /\ exists l, new_events w run.2
                       = (l ++ [WriteFile image_path body; Sleep (Millis 700)])%list
                       /\ no_sleep l)
    /\ (forall e, escapes (outcome k) = Some e ->
          run.1 = Raise e
          /\ failures run.2 = failures w
          /\ sent run.2 = (replicate (S k) req ++ sent w)%list
          /\ no_sleep (new_events w run.2)).
Proof.
  intros Hv req outcome run k Hk Hto. subst req.
  destruct (loop_timeouts net url image_path k (S (2 - k)) 0 w)
    as (w' & Hrun & Hadv & Hheap); [lia | exact Hto |].
  replace (k + S (2 - k))%nat with 3%nat in Hrun by lia.
  change (run = download_loop net (S (2 - k)) (0 + Z.of_nat k) url image_path w')
    in Hrun.
  assert (Hat : outcome k
                = attempt (dirs w') image_path
                    (net (sent w') (image_request url)))
    by (subst outcome; simpl;
        by rewrite (adv_sent _ _ _ _ Hadv), (adv_dirs _ _ _ _ Hadv)).
  assert (Hv' : valid_ref w')
    by (unfold valid_ref; by rewrite Hheap, (adv_ref _ _ _ _ Hadv)).
  assert (Hfw : failures w' = failures w)
    by (apply failures_kept; [apply (adv_ref _ _ _ _ Hadv) | exact Hheap]).
  assert (Hend : forall w1, advanced url 1 w' w1 ->
            sent w1 = (replicate (S k) (image_request url) ++ sent w)%list
            /\ no_sleep (new_events w w1)).
  { intros w1 Hadv1.
    pose proof (advanced_trans url k 1 w w' w1 Hadv Hadv1) as Hall.
    replace (k + 1)%nat with (S k) in Hall by lia.
    split; [apply (adv_sent _ _ _ _ Hall)|].
    destruct (adv_log _ _ _ _ Hall) as (l & Hl & Hn).
    by rewrite (new_events_app w w1 l Hl). }
  split; [|split].
  - intros Hcase.
    assert (Hstep : exists w1, run = (Return tt, w1) /\ advanced url 1 w' w1
              /\ heap w1 = <[incomplete_images w' :=
                               (failures w' ++ [(url, image_path)])%list]> (heap w')).
    { rewrite Hrun. destruct Hcase as [[-> Hc]|Hc].
      - apply loop_third_timeout. by rewrite <- Hat.
      - apply loop_fails_for_good; [lia | by rewrite <- Hat]. }
    destruct Hstep as (w1 & -> & Hadv1 & Hheap1). simpl.
    destruct (Hend w1 Hadv1) as [Hs Hn].
    repeat split; try assumption.
    rewrite <- Hfw. apply failures_recorded;
      [exact Hv' | apply (adv_ref _ _ _ _ Hadv1) | exact Hheap1].
  - intros st body Ha.
    destruct (loop_answers net url image_path (2 - k) (0 + Z.of_nat k) w' st body)
      as (w1 & Hr & Hs & Hh & Hi & Hl); [lia | by rewrite <- Hat |].
    rewrite Hrun, Hr. simpl. split; [reflexivity|]. split; [|split].
    + rewrite <- Hfw. by apply failures_kept.
    + rewrite Hs, (adv_sent _ _ _ _ Hadv). reflexivity.
    + destruct (adv_log _ _ _ _ Hadv) as (l & Hlw & Hn).
      exists (l ++ [Get (image_request url)])%list. split.
      * apply new_events_app. rewrite Hl, Hlw.
        rewrite <- !app_assoc. reflexivity.
      * apply Forall_app. split; [exact Hn | repeat constructor].
  - intros e He.
    destruct (loop_escapes net url image_path (2 - k) (0 + Z.of_nat k) w' e)
      as (w1 & Hr & Hadv1 & Hh); [lia | by rewrite <- Hat |].
    rewrite Hrun, Hr. simpl. destruct (Hend w1 Hadv1) as [Hs Hn].
    repeat split; try assumption.
    rewrite <- Hfw. apply failures_kept; [apply (adv_ref _ _ _ _ Hadv1) | exact Hh].
Qed.

(** C5 at a response of status 404. The folder of the image exists, and
    the server answers the request for the image with the error page of
    status 404. [rq.get] raises nothing for such a response, and
    [download_image] neither calls [raise_for_status] nor reads
    [status_code]: the page is written to the image path, the worker sleeps
    0.7 s and returns as after a download, and nothing is appended to the
    Failure List, so the image is never asked for again. Had the error come
    as the exception [HTTPError] that line 176 names, the task would have
    been recorded after the one request. *)
Theorem http_error_response_is_saved_as_the_image :
  let run := download_image net_not_found task_289.1 task_289.2 with_folder_a in
  can_open (dirs with_folder_a) task_289.2 = true
  /\ failures with_folder_a = []
  /\ run.1 = Return tt
  /\ new_events with_folder_a run.2
     = [Get (image_request task_289.1); WriteFile task_289.2 not_found_page;
        Sleep (Millis 700)]
  /\ failures run.2 = []
  /\ failures (download_image (fun _ _ => Raises HTTPError) task_289.1
                 task_289.2 with_folder_a).2
     = [task_289].
Proof. vm_compute. repeat split. Qed.

(* ===================================================================== *)
(** ** The listing fetch *)
(* ===================================================================== *)

Section ListingFacts.

Variable net : list request -> request -> reply.
Variable timeout : Z.

Local Abbreviation req := (mkRequest fivek_src timeout false).

(** Status 200: the body is returned. *)
Lemma make_request_200 (w : world) (body : string) :
  net (sent w) req = Answers 200 body ->
  (_make_request net timeout w).1 = Return (Some body)
  /\ new_events w (_make_request net timeout w).2
     = [Sleep Jitter; Get req; Stdout (PyStr.line "request successed")].
Proof.
  intros H. unfold _make_request, bind, sleep, emit, rq_get, print. simpl.
  rewrite H. simpl. split; [reflexivity|].
  unfold new_events. simpl. rewrite <- !app_assoc. by rewrite drop_app_length.
Qed.

(** Any other status: it is printed and [exit()] raises [SystemExit]. *)
Lemma make_request_other_status (w : world) (status : Z) (body : string) :
  net (sent w) req = Answers status body -> status <> 200 ->
  (_make_request net timeout w).1 = Raise SystemExit
  /\ new_events w (_make_request net timeout w).2
     = [Sleep Jitter; Get req;
        Stdout (PyStr.line ("Status_code: " +:+ status_code_get status))].
Proof.
  intros H Hs. unfold _make_request, bind, sleep, emit, rq_get, print. simpl.
  rewrite H. replace (status =? 200) with false by (symmetry; by apply Z.eqb_neq).
  simpl. split; [reflexivity|].
  unfold new_events. simpl. rewrite <- !app_assoc. by rewrite drop_app_length.
Qed.

(** The request raises an [Exception]: its class name is printed and the
    method falls off its end, returning [None]. *)
Lemma make_request_raises (w : world) (e : exn) :
  raised (net (sent w) req) = Some e -> is_Exception e = true ->
  (_make_request net timeout w).1 = Return None
  /\ new_events w (_make_request net timeout w).2
     = [Sleep Jitter; Get req; Stdout (PyStr.line (class_name e))].
Proof.
  intros H He. unfold _make_request, bind, sleep, emit, rq_get, print. simpl.
  assert (Hlog : forall l : list event,
            drop (length l)
                 (((l ++ [Sleep Jitter]) ++ [Get req])
                  ++ [Stdout (PyStr.line (class_name e))])%list
            = [Sleep Jitter; Get req; Stdout (PyStr.line (class_name e))]).
  { intros l. rewrite <- !app_assoc. by rewrite drop_app_length. }
  destruct (net (sent w) req) as [st body|e'|part e']; simpl in H;
    [discriminate| |]; injection H as ->; rewrite He;
    destruct (is_RequestException e); simpl; (split; [reflexivity|]);
    apply Hlog.
Qed.

End ListingFacts.

(** C3 at a network failure. When the GET of the listing raises
    [ConnectionError], [_make_request] prints the class name and returns
    [None]; it does not stop the run. [main] goes on to create the folder of
    every expert and to open the progress bar and the pool, and ends with the
    [TypeError] that [re.finditer] raises on [None]. *)
Theorem listing_fetch_network_failure_goes_on :
  let fetch := _make_request net_unreachable 5 (fresh_world ∅) in
  let run := main net_unreachable crawler_a 1 (fresh_world ∅) in
  fetch.1 = Return None
  /\ log fetch.2
     = [Sleep Jitter; Get (mkRequest fivek_src 5 false);
        Stdout (PyStr.line "ConnectionError")]
  /\ run.1 = Raise TypeError
  /\ log run.2
     = [Sleep Jitter; Get (mkRequest fivek_src 5 false);
        Stdout (PyStr.line "ConnectionError");
        Mkdir "/home/user/fivek_expert/tiff16_a";
        PbarOpen 5000; PoolOpen 5; PoolShutdown; PbarClose].
Proof. vm_compute. repeat split. Qed.

(* ===================================================================== *)
(** ** The bulk phase *)
(* ===================================================================== *)

Lemma select_strings_only (self : FivekCrawler) (ms : list Re.Match) :
  strings_only (select self ms).
Proof.
  induction ms as [|m ms IH]; simpl; [exact I|].
  destruct (url_index m) as [i|]; [|exact I].
  destruct ((image_from self <=? i) && (i <=? image_to self)); [exact IH | exact IH].
Qed.

(** The extractor yields [url.group()], a string. *)
Lemma extractor_strings_only (self : FivekCrawler) (web_html : option string) :
  strings_only (_get_expert_images_url self web_html).
Proof.
  unfold _get_expert_images_url.
  destruct (String.eqb _ ""); [exact I|].
  destruct web_html; [apply select_strings_only | exact I].
Qed.

Section BulkFacts.

Variable net : list request -> request -> reply.
Variable self : FivekCrawler.

(** On a generator of strings the submission loop submits nothing: it ends
    at once on an empty generator, and at the first URL it raises, because
    a string has no method [group] (line 196). *)
Lemma bulk_submit_strings (urls : gen pyval) (i : Z)
    (folder_dir : option PyPath.Path) (total : Z)
    (futures : list nat) (future : option nat) (w : world) :
  strings_only urls ->
  bulk_submit urls i folder_dir total futures future w
  = (match urls with
     | Stop => Return (futures, future)
     | Throw e => Raise e
     | Yield _ _ =>
         match folder_dir with
         | Some _ => Raise AttributeError
         | None => Raise UnboundLocalError
         end
     end, w).
Proof.
  destruct urls as [|[s|m] rest|e]; simpl; intros H; try reflexivity; [|done].
  destruct folder_dir; reflexivity.
Qed.

(** The whole bulk phase on a generator of strings, no pool being open when
    it starts: the progress bar and the pool are opened and closed, and
    nothing else happens. *)
Lemma bulk_phase_strings (urls : gen pyval)
    (folder_dir : option PyPath.Path) (total : Z) (w : world) :
  strings_only urls -> queue w = [] ->
  exists w',
    bulk_phase net self urls folder_dir total w
    = (if max_workers self <=? 0 then Raise ValueError
       else bulk_outcome urls folder_dir, w')
    /\ sent w' = sent w /\ dirs w' = dirs w /\ heap w' = heap w
    /\ incomplete_images w' = incomplete_images w /\ queue w' = []
    /\ futures_made w' = futures_made w
    /\ log w'
       = (log w ++ (if max_workers self <=? 0 then [PbarOpen total; PbarClose]
                    else [PbarOpen total; PoolOpen (max_workers self);
                          PoolShutdown; PbarClose]))%list.
Proof.
  intros Hs Hq. destruct w as [se di he inc qu fu lo]. simpl in Hq. subst qu.
  unfold bulk_phase, with_pbar, with_pool.
  destruct (max_workers self <=? 0).
  - eexists. split; [reflexivity|]. simpl. repeat split.
    by rewrite <- !app_assoc.
  - unfold bind at 1. unfold emit at 1. simpl.
    unfold finally at 1. unfold bind at 1. unfold emit at 1. simpl.
    unfold finally at 1. unfold bind at 1.
    rewrite (bulk_submit_strings _ _ _ _ _ _ _ Hs).
    destruct urls as [|u rest|e]; [| destruct folder_dir |];
      (eexists; split; [reflexivity|]; simpl; repeat split;
       by rewrite <- !app_assoc).
Qed.

End BulkFacts.

Lemma init_asserts_total (self : FivekCrawler) :
  init_asserts (image_from self) (image_to self) = true ->
  0 <= total_images self.
Proof.
  unfold init_asserts, total_images. intros H.
  apply andb_prop in H as [H _]. apply andb_prop in H as [H _].
  apply Z.ltb_lt in H. nia.
Qed.

(** *** [main] on a crawler whose Failure List is empty *)

Section MainFacts.

Variable net : list request -> request -> reply.
Variable self : FivekCrawler.

Lemma submitted_app (l l' : list event) :
  submitted (l ++ l') = (submitted l ++ submitted l')%list.
Proof.
  induction l as [|e l IH]; [reflexivity|].
  destruct e; simpl; rewrite ?IH; reflexivity.
Qed.

Lemma quiet_refl (w : world) : quiet w w.
Proof.
  repeat split. exists []. split; [by rewrite app_nil_r | reflexivity].
Qed.

Lemma quiet_trans (w w1 w2 : world) : quiet w w1 -> quiet w1 w2 -> quiet w w2.
Proof.
  intros (Hh & Hi & Hq & l & Hl & Hs) (Hh' & Hi' & Hq' & l' & Hl' & Hs').
  repeat split; try congruence.
  exists (l ++ l')%list. split; [by rewrite Hl', Hl, app_assoc|].
  by rewrite submitted_app, Hs, Hs'.
Qed.

Ltac quiet_by_log :=
  repeat split; simpl;
  eexists; (split; [rewrite <- ?app_assoc; reflexivity | reflexivity]).

Lemma make_request_quiet (timeout : Z) (w : world) :
  quiet w (_make_request net timeout w).2
  /\ (_make_request net timeout w).1 <> OutOfFuel.
Proof.
  unfold _make_request, bind, sleep, emit, rq_get, print. simpl.
  destruct (net _ _) as [st body|e|part e]; simpl.
  - destruct (st =? 200); simpl; (split; [quiet_by_log | discriminate]).
  - destruct (is_RequestException e); [|destruct (is_Exception e)]; simpl;
      (split; [quiet_by_log | discriminate]).
  - destruct (is_RequestException e); [|destruct (is_Exception e)]; simpl;
      (split; [quiet_by_log | discriminate]).
Qed.

Lemma create_expert_folder_quiet (expert_id saving_dir : string) (w : world) :
  quiet w (_create_expert_folder expert_id saving_dir w).2
  /\ exists d, (_create_expert_folder expert_id saving_dir w).1 = Return d.
Proof.
  unfold _create_expert_folder, bind, try_except, mkdir_parents, print, emit.
  case_bool_decide; simpl; (split; [quiet_by_log | by eexists]).
Qed.

Lemma create_folders_quiet (experts : list string) :
  forall (folder_dir : option PyPath.Path) (w : world),
    quiet w (create_folders self experts folder_dir w).2
    /\ exists d, (create_folders self experts folder_dir w).1 = Return d.
Proof.
  induction experts as [|i experts IH]; intros folder_dir w; simpl.
  - split; [apply quiet_refl | by eexists].
  - unfold bind.
    destruct (create_expert_folder_quiet i (saving_dir self) w) as (Hq & d & Hd).
    destruct (_create_expert_folder i (saving_dir self) w) as [r w1].
    simpl in Hq, Hd. subst r.
    destruct (IH (Some d) w1) as (Hq' & Hd'). split; [|exact Hd'].
    exact (quiet_trans _ _ _ Hq Hq').
Qed.

(** Whatever the network, the listing and the state of the disk: a run of
    [main] on a crawler whose Failure List is empty ends (by returning or
    by an exception) without having submitted a single download. *)
Lemma lookup_new_list (h : list (list task)) (i : nat) :
  default [] (h !! i) = [] -> default [] ((h ++ [[]])%list !! i) = [].
Proof.
  destruct (h !! i) as [x|] eqn:Hx; simpl; intros H.
  - by rewrite (lookup_app_l_Some _ _ _ _ Hx).
  - apply lookup_ge_None in Hx.
    destruct (decide (i = length h)) as [->|Hne].
    + by rewrite list_lookup_middle.
    + rewrite lookup_ge_None_2; [reflexivity|]. rewrite length_app. simpl. lia.
Qed.

(** With nothing in the list it starts from, the loop of the cleanup phases
    ends at its first test. *)
Lemma cleanup_nothing (fuel : nat) (remains : loc) (future : option nat)
    (w : world) :
  default [] (heap w !! remains) = [] ->
  cleanup net self fuel remains future w = (Return tt, w).
Proof.
  intros H. destruct fuel; simpl; unfold bind, read_list; by rewrite H.
Qed.

(** Whatever the network, the listing and the state of the disk: a run of
    [main] on a crawler whose Failure List is empty ends (by returning or
    by an exception) without having submitted a single download. *)
Lemma main_never_submits (fuel : nat) (w : world) :
  queue w = [] -> failures w = [] ->
  submitted (new_events w (main net self fuel w).2) = []
  /\ (main net self fuel w).1 <> OutOfFuel.
Proof.
  intros Hqueue Hfail.
  assert (Hgoal : exists r w', main net self fuel w = (r, w')
                    /\ (exists l, log w' = (log w ++ l)%list /\ submitted l = [])
                    /\ r <> OutOfFuel).
  { unfold main. unfold bind at 1.
    destruct (make_request_quiet 5 w) as (Hq1 & Hr1).
    destruct (_make_request net 5 w) as [[web_html|e|] w1]; simpl in Hq1, Hr1;
      [|eexists _, _; split; [reflexivity|]; split; [apply Hq1 | discriminate]
       | done].
    unfold bind at 1.
    destruct (create_folders_quiet (expert_list self) None w1) as (Hq2 & d & Hd).
    destruct (create_folders self (expert_list self) None w1) as [r w2].
    simpl in Hq2, Hd. subst r.
    pose proof (quiet_trans _ _ _ Hq1 Hq2) as Hq12.
    destruct Hq12 as (Hh & Hi & Hq & l & Hl & Hs).
    destruct (bulk_phase_strings net self (_get_expert_images_url self web_html)
                d (total_images self) w2 (extractor_strings_only self web_html))
      as (w3 & Hrun & _ & _ & Hh3 & Hi3 & Hq3 & _ & Hlog3); [congruence|].
    unfold bind at 1. rewrite Hrun.
    assert (Hlog : exists l', log w3 = (log w ++ l')%list /\ submitted l' = []).
    { eexists. split; [rewrite Hlog3, Hl, <- app_assoc; reflexivity|].
      rewrite submitted_app, Hs.
      by destruct (max_workers self <=? 0). }
    destruct (max_workers self <=? 0);
      [eexists _, _; split; [reflexivity|]; split; [exact Hlog | discriminate]|].
    destruct (_get_expert_images_url self web_html) as [|u rest|e]; simpl;
      [| destruct d;
         (eexists _, _; split; [reflexivity|]; split; [exact Hlog | discriminate])
       | eexists _, _; split; [reflexivity|]; split; [exact Hlog | discriminate]].
    unfold retry_failures, bind, get_incomplete_images, new_list,
      set_incomplete_images. simpl.
    rewrite cleanup_nothing.
    - eexists _, _. split; [reflexivity|]. split; [exact Hlog | discriminate].
    - simpl. apply lookup_new_list. rewrite Hh3, Hh, Hi3, Hi. exact Hfail. }
  destruct Hgoal as (r & w' & Hmain & (l & Hl & Hs) & Hr).
  rewrite Hmain. simpl. split; [|exact Hr].
  unfold new_events. by rewrite Hl, drop_app_length.
Qed.

End MainFacts.

(** C10 at the range [0, 1] and expert [a], for which the count
    [(image_to - image_from) * len(expert_list)] is 1, on a listing with an
    entry for each of the indices 0 and 1: the extractor has two URLs to
    give, one more than the count. The claim has the submission loop submit
    the first, stop at the test of line 198 and drop the second without a
    word. The loop never comes to that test: at the first URL line 196
    raises [AttributeError] (the defect of C1), no task is submitted, and
    [main] ends by that exception instead of going on to the cleanup
    phases. *)
Theorem bulk_loop_raises_before_its_stop_test :
  let self := mkCrawler ["a"] 5 "/home/user" 0 1 in
  let listing := "img/tiff16_a/a0000.tif img/tiff16_a/a0001.tif" in
  let run := main (net_serving listing) self 1 (fresh_world ∅) in
  init_asserts (image_from self) (image_to self) = true
  /\ yielded (_get_expert_images_url self (Some listing))
     = [PStr "img/tiff16_a/a0000.tif"; PStr "img/tiff16_a/a0001.tif"]
  /\ total_images self = 1
  /\ run.1 = Raise AttributeError
  /\ submitted (log run.2) = [].
Proof. vm_compute. repeat split. Qed.

(** C1 at a listing of one entry. The listing is fetched, the folders are
    made, the extractor has one URL to give, and the bulk phase raises
    [AttributeError] at it: line 196 calls [url.group()] on the string the
    extractor yielded. No task is submitted, no image is requested, and
    [main] ends with that exception. *)
Theorem main_raises_at_first_url :
  let listing := "img/tiff16_a/a0289.tif" in
  let run := main (net_serving listing) script_crawler 1 (fresh_world ∅) in
  yielded (_get_expert_images_url script_crawler (Some listing))
  = [PStr "img/tiff16_a/a0289.tif"]
  /\ run.1 = Raise AttributeError
  /\ submitted (log run.2) = []
  /\ sent run.2 = [mkRequest fivek_src 5 false].
Proof. vm_compute. repeat split. Qed.

(** C4 at the range [0, 2] and expert [a]. The listing has an entry for
    each of the indices 0, 1 and 2, the count
    [(image_to - image_from) * len(expert_list)] is 2, and the number of
    tasks the bulk phase submits is 0, for the reason of C1. *)
Theorem initial_task_count_is_zero :
  let self := mkCrawler ["a"] 5 "/home/user" 0 2 in
  let listing :=
    "img/tiff16_a/a0000.tif img/tiff16_a/a0001.tif img/tiff16_a/a0002.tif" in
  let run := main (net_serving listing) self 1 (fresh_world ∅) in
  init_asserts (image_from self) (image_to self) = true
  /\ yielded (_get_expert_images_url self (Some listing))
     = [PStr "img/tiff16_a/a0000.tif"; PStr "img/tiff16_a/a0001.tif";
        PStr "img/tiff16_a/a0002.tif"]
  /\ total_images self = 2
  /\ run.1 = Raise AttributeError
  /\ length (submitted (log run.2)) = 0%nat.
Proof. vm_compute. repeat split. Qed.

(* ===================================================================== *)
(** ** The cleanup phases *)
(* ===================================================================== *)

(** C2 on a crawler whose Failure List holds two tasks when [main] is
    called. The listing has no entry, so the bulk phase submits nothing and
    ends with these two recorded tasks. The first cleanup phase reads the
    list, replaces it by a new one and resubmits the first task; then line
    211 reads the local [future], which no statement of this run has
    assigned, and raises [UnboundLocalError]. The second task is never
    resubmitted, and [main] ends by that exception while the Failure List,
    which now holds the first task again, is not empty. *)
Theorem cleanup_raises_after_first_resubmission :
  let run := main net_refusing script_crawler 3 after_two_downloads in
  failures after_two_downloads = [task_289; task_290]
  /\ run.1 = Raise UnboundLocalError
  /\ submitted (new_events after_two_downloads run.2) = [task_289]
  /\ failures run.2 = [task_289].
Proof. vm_compute. repeat split. Qed.

(** C7 on a crawler whose Failure List holds one task when [main] is
    called. The cleanup phase resubmits it; the three attempts of that worker
    time out and the task is appended to the new Failure List once. The
    phase ends with [UnboundLocalError] (line 211), so although the Failure
    List is not empty no further phase follows: the task was submitted once
    in the whole run and requested three times. *)
Theorem failed_task_is_not_resubmitted :
  let run := main net_stalling script_crawler 3 after_one_download in
  failures after_one_download = [task_289]
  /\ run.1 = Raise UnboundLocalError
  /\ submitted (new_events after_one_download run.2) = [task_289]
  /\ failures run.2 = [task_289]
  /\ length (filter (fun r => bool_decide (r = image_request task_289.1))
                    (sent run.2))
     = (3 + 3)%nat.
Proof. vm_compute. repeat split. Qed.

(* ===================================================================== *)
(** ** Further properties of the constructor and of the listing fetch *)
(* ===================================================================== *)

(** X1. [__init__] accepts exactly the bounds with
    [0 <= image_from < image_to <= 5000] and raises [AssertionError] on all
    others; it stores its arguments unchanged. For an accepted crawler the
    count [total_images] lies between the number of experts and 5000 times
    that number, so it is zero only when there is no expert. *)
Theorem init_accepts_exactly_valid_bounds
    (experts : list string) (workers : Z) (dir : string) (lo hi : Z) :
  let made := __init__ experts workers dir lo hi in
  (0 <= lo < hi /\ hi <= 5000 <->
   made = Return (mkCrawler experts workers dir lo hi))
  /\ (~ (0 <= lo < hi /\ hi <= 5000) <-> made = Raise AssertionError)
  /\ (forall self, made = Return self ->
        Z.of_nat (length (expert_list self)) <= total_images self
        /\ total_images self <= 5000 * Z.of_nat (length (expert_list self))).
Proof.
  intros made. subst made. unfold __init__.
  destruct (init_asserts lo hi) eqn:Hinit.
  - assert (Hb : 0 <= lo < hi /\ hi <= 5000).
    { unfold init_asserts in Hinit.
      rewrite !andb_true_iff, Z.ltb_lt, !Z.leb_le in Hinit. lia. }
    split; [by split|]. split; [split; [intros H; by destruct H | discriminate]|].
    intros self [= <-]. unfold total_images. simpl. nia.
  - assert (Hb : ~ (0 <= lo < hi /\ hi <= 5000)).
    { intros Hb. unfold init_asserts in Hinit.
      assert (Ht : (lo <? hi) && ((0 <=? lo) && (lo <=? 5000))
                   && ((0 <=? hi) && (hi <=? 5000)) = true)
        by (rewrite !andb_true_iff, Z.ltb_lt, !Z.leb_le; lia).
      congruence. }
    split; [split; [intros H; by destruct Hb | discriminate]|].
    split; [by split|]. discriminate.
Qed.

Section FetchShape.

Variable net : list request -> request -> reply.
Variable timeout : Z.
Variable w : world.

Local Abbreviation req := (mkRequest fivek_src timeout false).
Local Abbreviation run := (_make_request net timeout w).

Lemma request_exceptions_are_exceptions (e : exn) :
  is_RequestException e = true -> is_Exception e = true.
Proof. by destruct e. Qed.

(** What [_make_request] leaves behind, whatever the reply. *)
Lemma make_request_shape :
  sent run.2 = req :: sent w
  /\ dirs run.2 = dirs w /\ heap run.2 = heap w
  /\ incomplete_images run.2 = incomplete_images w /\ queue run.2 = queue w
  /\ (exists said, new_events w run.2 = (Sleep Jitter :: Get req :: said)%list
                   /\ (length said <= 1)%nat /\ submitted said = []
                   /\ no_sleep said)
  /\ run.1 <> OutOfFuel.
Proof.
  unfold _make_request, bind, sleep, emit, rq_get, print. simpl.
  destruct w as [se di he inc qu fu lo]. simpl.
  destruct (net se req) as [st body|e|part e]; simpl;
    [destruct (st =? 200)
    |destruct (is_RequestException e); [|destruct (is_Exception e)]
    |destruct (is_RequestException e); [|destruct (is_Exception e)]];
    simpl;
    (split; [reflexivity|]); (split; [reflexivity|]); (split; [reflexivity|]);
    (split; [reflexivity|]); (split; [reflexivity|]);
    (split; [|discriminate]);
    eexists;
    (split; [unfold new_events; simpl; rewrite <- !app_assoc;
             rewrite drop_app_length; reflexivity|]);
    (split; [simpl; lia|]); (split; [reflexivity|]);
    unfold no_sleep; repeat constructor.
Qed.

(** The result of [_make_request], by the reply to its GET. *)
Lemma make_request_result :
  run.1 = match net (sent w) req with
          | Answers st body =>
              if st =? 200 then Return (Some body) else Raise SystemExit
          | Raises e | Breaks _ e =>
              if is_Exception e then Return None else Raise e
          end.
Proof.
  unfold _make_request, bind, sleep, emit, rq_get, print. simpl.
  destruct (net (sent w) req) as [st body|e|part e]; simpl;
    [by destruct (st =? 200)| |];
    (destruct (is_RequestException e) eqn:Hr;
     [by rewrite (request_exceptions_are_exceptions e Hr)
     |by destruct (is_Exception e)]).
Qed.

End FetchShape.

(** X2. Whatever the network does, [_make_request] makes exactly one
    request, the plain GET of the dataset root with the caller's timeout,
    after one jittered [sleep]; it prints at most one line and touches
    neither the disk nor the Failure List. It returns the body exactly on
    status 200, returns [None] exactly when the GET raised an [Exception],
    and otherwise raises: [SystemExit] on another status, or the exception
    of the GET when that is no [Exception] (a [KeyboardInterrupt]). *)
Theorem listing_fetch_makes_one_request
    (net : list request -> request -> reply) (timeout : Z) (w : world) :
  let req := mkRequest fivek_src timeout false in
  let run := _make_request net timeout w in
  sent run.2 = req :: sent w
  /\ dirs run.2 = dirs w /\ heap run.2 = heap w
  /\ incomplete_images run.2 = incomplete_images w /\ queue run.2 = queue w
  /\ (exists said, new_events w run.2 = (Sleep Jitter :: Get req :: said)%list
                   /\ (length said <= 1)%nat /\ submitted said = []
                   /\ no_sleep said)
  /\ (forall html, run.1 = Return (Some html)
                   <-> net (sent w) req = Answers 200 html)
  /\ (run.1 = Return None
      <-> exists e, raised (net (sent w) req) = Some e /\ is_Exception e = true)
  /\ (forall e, run.1 = Raise e <->
        (e = SystemExit
         /\ exists st body, net (sent w) req = Answers st body /\ st <> 200)
        \/ (raised (net (sent w) req) = Some e /\ is_Exception e = false))
  /\ run.1 <> OutOfFuel.
Proof.
  intros req run.
  destruct (make_request_shape net timeout w)
    as (Hs & Hd & Hh & Hi & Hq & Hl & Hf).
  pose proof (make_request_result net timeout w) as Hr.
  fold req in Hs, Hl, Hr. fold run in Hs, Hd, Hh, Hi, Hq, Hl, Hf, Hr.
  do 6 (split; [assumption|]). split; [|split; [|split; [|exact Hf]]].
  - intros html. rewrite Hr.
    destruct (net (sent w) req) as [st body|e|part e]; simpl.
    + destruct (st =? 200) eqn:Hst;
        rewrite ?Z.eqb_eq, ?Z.eqb_neq in Hst; split; intros H;
        try discriminate; congruence.
    + destruct (is_Exception e); split; discriminate.
    + destruct (is_Exception e); split; discriminate.
  - rewrite Hr.
    destruct (net (sent w) req) as [st body|e|part e]; simpl.
    + split; [destruct (st =? 200); discriminate
             |intros (e & He & _); discriminate].
    + destruct (is_Exception e) eqn:Hex; split;
        [by exists e | done | discriminate
        |intros (e0 & [= <-] & ?); congruence].
    + destruct (is_Exception e) eqn:Hex; split;
        [by exists e | done | discriminate
        |intros (e0 & [= <-] & ?); congruence].
  - intros e0. rewrite Hr.
    destruct (net (sent w) req) as [st body|e|part e]; simpl.
    + destruct (st =? 200) eqn:Hst;
        rewrite ?Z.eqb_eq, ?Z.eqb_neq in Hst; split.
      * discriminate.
      * intros [[_ (st' & body' & [= <- _] & Hne)]|[H _]];
          [congruence | discriminate].
      * intros [= <-]. left. split; [reflexivity|]. by exists st, body.
      * intros [[-> _]|[H _]]; [reflexivity | discriminate].
    + destruct (is_Exception e) eqn:Hex; split.
      * discriminate.
      * intros [[_ (st' & body' & H & _)]|[[= <-] H]];
          [discriminate | congruence].
      * intros [= <-]. by right.
      * intros [[_ (st' & body' & H & _)]|[[= <-] H]];
          [discriminate | reflexivity].
    + destruct (is_Exception e) eqn:Hex; split.
      * discriminate.
      * intros [[_ (st' & body' & H & _)]|[[= <-] H]];
          [discriminate | congruence].
      * intros [= <-]. by right.
      * intros [[_ (st' & body' & H & _)]|[[= <-] H]];
          [discriminate | reflexivity].
Qed.

Lemma status_code_missing (k : Z) :
  k ∉ status_code_keys -> status_code_get k = "Not define in table".
Proof.
  unfold status_code_keys. intros H.
  rewrite !not_elem_of_cons in H. destruct H as (?&?&?&?&?&?&?&?&_).
  unfold status_code_get, status_code.
  by rewrite !lookup_insert_ne, lookup_empty by done.
Qed.

Lemma status_code_present (k : Z) :
  k ∈ status_code_keys ->
  exists reason, status_code_get k = pretty k +:+ ": " +:+ reason.
Proof.
  unfold status_code_keys. intros H.
  rewrite !elem_of_cons in H.
  destruct H as [->|[->|[->|[->|[->|[->|[->|[->|H]]]]]]]];
    [eexists; vm_compute; reflexivity ..|by apply elem_of_nil in H].
Qed.

(** X3. On a listing response of a status other than 200, [_make_request]
    prints one line, [Status_code: ] and the entry of the table
    [status_code], and raises [SystemExit]. The table has eight keys: for
    each of them the entry begins with the status, and for every other
    status (500, say, or 301) it is [Not define in table], in which the
    status does not appear. *)
Theorem listing_fetch_reports_the_status
    (net : list request -> request -> reply) (timeout : Z) (w : world)
    (status : Z) (body : string) :
  net (sent w) (mkRequest fivek_src timeout false) = Answers status body ->
  status <> 200 ->
  exists entry,
    (_make_request net timeout w).1 = Raise SystemExit
    /\ new_events w (_make_request net timeout w).2
       = [Sleep Jitter; Get (mkRequest fivek_src timeout false);
          Stdout (PyStr.line ("Status_code: " +:+ entry))]
    /\ (status ∈ status_code_keys ->
        exists reason, entry = pretty status +:+ ": " +:+ reason)
    /\ (status ∉ status_code_keys -> entry = "Not define in table").
Proof.
  intros Hnet Hne. exists (status_code_get status).
  destruct (make_request_other_status net timeout w status body Hnet Hne)
    as [Hr Hl].
  split; [exact Hr|]. split; [exact Hl|].
  split; [apply status_code_present | apply status_code_missing].
Qed.

Lemma listing_fetch_reports_the_status_witness :
  500 <> 200
  /\ exists entry,
       (_make_request (fun _ _ => Answers 500 "") 5 (fresh_world ∅)).1
       = Raise SystemExit
       /\ new_events (fresh_world ∅)
            (_make_request (fun _ _ => Answers 500 "") 5 (fresh_world ∅)).2
          = [Sleep Jitter; Get (mkRequest fivek_src 5 false);
             Stdout (PyStr.line ("Status_code: " +:+ entry))]
       /\ (500 ∈ status_code_keys ->
           exists reason, entry = pretty 500 +:+ ": " +:+ reason)
       /\ (500 ∉ status_code_keys -> entry = "Not define in table").
Proof.
  assert (Hne : 500 <> 200) by lia.
  split; [exact Hne|].
  exact (listing_fetch_reports_the_status (fun _ _ => Answers 500 "") 5
           (fresh_world ∅) 500 "" eq_refl Hne).
Defined.

(* ===================================================================== *)
(** ** Further properties of directory preparation *)
(* ===================================================================== *)

Section FolderShape.

Lemma append_cons (c : ascii) (a b : string) :
  String c a +:+ b = String c (a +:+ b).
Proof. reflexivity. Qed.

Lemma prefix_empty (s : string) : String.prefix "" s = true.
Proof. by destruct s. Qed.

(** A text without the separator is the head of the first piece. *)
Lemma split_head (sep : ascii) (p e : string) :
  PyStr.has_char sep p = false ->
  PyStr.split sep (p +:+ e)
  = match PyStr.split sep e with
    | h :: t => (p +:+ h) :: t
    | [] => [p]
    end.
Proof.
  destruct (split_nonempty sep e) as (h & t & He). rewrite He.
  induction p as [|c p IH]; intros Hp.
  - change ("" +:+ e) with e. by rewrite He.
  - simpl in Hp. apply orb_false_elim in Hp as [Hc Hp].
    rewrite append_cons. simpl. by rewrite Ascii.eqb_sym, Hc, (IH Hp).
Qed.

Lemma split_whole (sep : ascii) (p : string) :
  PyStr.has_char sep p = false -> PyStr.split sep p = [p].
Proof.
  induction p as [|c p IH]; intros Hp; [reflexivity|].
  simpl in Hp. apply orb_false_elim in Hp as [Hc Hp].
  simpl. by rewrite Ascii.eqb_sym, Hc, (IH Hp).
Qed.

(** The components of the folder of an expert: those of the base path,
    [fivek_expert], and what the identifier adds to [tiff16_]. *)
Lemma expert_folder_components (saving_dir expert_id : string) :
  exists h t,
    PyStr.split "/" expert_id = h :: t
    /\ PyPath.parts (expert_folder saving_dir expert_id)
       = (List.filter PyPath.keeps (PyStr.split "/" saving_dir)
          ++ "fivek_expert" :: ("tiff16_" +:+ h) :: List.filter PyPath.keeps t)%list.
Proof.
  destruct (split_nonempty "/" expert_id) as (h & t & Hsplit).
  exists h, t. split; [exact Hsplit|].
  unfold expert_folder, PyPath.of_string. simpl PyPath.parts.
  change (saving_dir +:+ "/fivek_expert/tiff16_" +:+ expert_id)
    with (saving_dir +:+ String "/"
            ("fivek_expert" +:+ String "/" ("tiff16_" +:+ expert_id))).
  rewrite !split_app_sep, (split_head "/" "tiff16_" expert_id eq_refl), Hsplit.
  rewrite !List.filter_app. reflexivity.
Qed.

Lemma parse_root_base (saving_dir rest rest' : string) :
  PyPath.parse_root (saving_dir +:+ String "/" (String "f" rest))
  = PyPath.parse_root (saving_dir +:+ String "/" (String "f" rest')).
Proof.
  unfold PyPath.parse_root.
  destruct saving_dir as [|a [|b [|c d]]]; rewrite ?append_cons;
    change ("" +:+ ?x) with x; cbn [String.prefix];
    repeat (match goal with
            | |- context [ascii_dec ?x ?y] => destruct (ascii_dec x y)
            end; try discriminate; cbn [String.prefix];
            rewrite ?prefix_empty; try reflexivity).
Qed.

(** Every non-empty prefix of the components is in the lineage. *)
Lemma lineage_from_prefix (r : string) (rest seen : list string) (k : nat) :
  (1 <= k <= length rest)%nat ->
  PyPath.mkPath r (seen ++ take k rest)%list ∈ PyPath.lineage_from r seen rest.
Proof.
  revert seen k; induction rest as [|x rest IH]; intros seen k Hk;
    simpl in Hk; [lia|].
  destruct k as [|k]; [lia|]. simpl.
  destruct k as [|k].
  - rewrite take_0. apply list_elem_of_here.
  - apply list_elem_of_further.
    replace (seen ++ x :: take (S k) rest)%list
      with ((seen ++ [x]) ++ take (S k) rest)%list by (by rewrite <- app_assoc).
    apply IH. lia.
Qed.

Lemma lineage_from_only_prefixes (r : string) (rest seen : list string)
    (p : PyPath.Path) :
  p ∈ PyPath.lineage_from r seen rest ->
  exists k, (1 <= k <= length rest)%nat
            /\ p = PyPath.mkPath r (seen ++ take k rest)%list.
Proof.
  revert seen; induction rest as [|x rest IH]; intros seen Hp; simpl in Hp.
  - apply elem_of_nil in Hp as [].
  - apply elem_of_cons in Hp as [->|Hp].
    + exists 1%nat. simpl. split; [lia|]. by rewrite take_0.
    + destruct (IH _ Hp) as (k & Hk & ->). exists (S k). simpl.
      split; [lia|]. by rewrite <- app_assoc.
Qed.

Lemma forallb_take {A} (f : A -> bool) (l : list A) (k : nat) :
  forallb f l = true -> forallb f (take k l) = true.
Proof.
  revert k; induction l as [|x l IH]; intros [|k] H; try reflexivity.
  simpl in *. apply andb_prop in H as [Hx Hl]. by rewrite Hx, (IH k Hl).
Qed.

End FolderShape.

(** X4. On a disk where every directory has one name, its plain absolute
    path, and for a folder whose path is plain and absolute too (no [..]
    in it): when the folder of an expert is not there,
    [_create_expert_folder] creates it together with its missing ancestors
    ([parents=True]) and prints nothing. Afterwards the folder and its
    parent exist, the directories on disk are exactly the former ones and
    the paths made of the first components of the folder, and every
    directory still has a plain absolute name. Nothing is removed. *)
Theorem create_expert_folder_makes_parents
    (expert_id saving_dir : string) (w : world) :
  let folder := expert_folder saving_dir expert_id in
  let run := _create_expert_folder expert_id saving_dir w in
  plain_path folder = true ->
  plain_disk w ->
  PyPath.str folder ∉ dirs w ->
  run.1 = Return folder
  /\ new_events w run.2 = [Mkdir (PyPath.str folder)]
  /\ PyPath.str folder ∈ dirs run.2
  /\ PyPath.str (PyPath.parent folder) ∈ dirs run.2
  /\ (forall d, d ∈ dirs run.2 <->
        (d ∈ dirs w
         \/ (exists k, (1 <= k <= length (PyPath.parts folder))%nat
                       /\ d = PyPath.str (PyPath.mkPath (PyPath.root folder)
                                            (take k (PyPath.parts folder))))))
  /\ plain_disk run.2.
Proof.
  intros folder run Hplain Hdisk Hnew.
  apply andb_prop in Hplain as [Hroot Hplain].
  assert (Hrun : run = (Return folder,
            mkWorld (sent w)
                    (dirs w ∪ list_to_set (PyPath.str <$> PyPath.lineage folder))
                    (heap w) (incomplete_images w) (queue w) (futures_made w)
                    (log w ++ [Mkdir (PyPath.str folder)])%list)).
  { subst run. unfold _create_expert_folder, bind, try_except, mkdir_parents.
    fold (expert_folder saving_dir expert_id). fold folder.
    by rewrite (bool_decide_eq_false_2 _ Hnew). }
  assert (Hall : forall d, d ∈ dirs run.2 <->
            (d ∈ dirs w
             \/ (exists k, (1 <= k <= length (PyPath.parts folder))%nat
                           /\ d = PyPath.str (PyPath.mkPath (PyPath.root folder)
                                                (take k (PyPath.parts folder)))))).
  { intros d. rewrite Hrun. simpl.
    rewrite elem_of_union, elem_of_list_to_set, list_elem_of_fmap.
    split; (intros [Hd|Hd]; [by left | right]).
    - destruct Hd as (p & -> & Hp).
      apply lineage_from_only_prefixes in Hp as (k & Hk & ->). by exists k.
    - destruct Hd as (k & Hk & ->). eexists. split; [reflexivity|].
      apply (lineage_from_prefix _ _ [] k Hk). }
  destruct (expert_folder_components saving_dir expert_id) as (h & t & _ & Hparts).
  fold folder in Hparts.
  assert (Hlen : (2 <= length (PyPath.parts folder))%nat).
  { rewrite Hparts, length_app. simpl. lia. }
  split; [by rewrite Hrun|].
  split; [|split; [|split; [|split; [exact Hall|]]]].
  - rewrite Hrun. unfold new_events. simpl. by rewrite drop_app_length.
  - apply Hall. right. exists (length (PyPath.parts folder)).
    split; [lia|]. rewrite firstn_all. by destruct folder.
  - apply Hall. right. exists (pred (length (PyPath.parts folder))).
    split; [lia|]. unfold PyPath.parent. by rewrite List.removelast_firstn_len.
  - intros d Hd. apply Hall in Hd as [Hd|(k & _ & ->)]; [by apply Hdisk|].
    eexists. split; [|reflexivity].
    unfold plain_path. apply andb_true_intro.
    split; [exact Hroot | by apply forallb_take].
Qed.

Lemma create_expert_folder_makes_parents_witness :
  plain_path (expert_folder "/home/user" "a") = true
  /\ plain_disk (fresh_world {["/home"]})
  /\ (PyPath.str (expert_folder "/home/user" "a")
      ∉ dirs (fresh_world {["/home"]}))
  /\ (PyPath.str (PyPath.parent (expert_folder "/home/user" "a"))
      ∈ dirs (_create_expert_folder "a" "/home/user" (fresh_world {["/home"]})).2).
Proof.
  assert (Hp : plain_path (expert_folder "/home/user" "a") = true)
    by reflexivity.
  assert (Hd : plain_disk (fresh_world {["/home"]})).
  { intros d Hd. change (d ∈ ({["/home"]} : gset string)) in Hd.
    apply elem_of_singleton in Hd as ->.
    exists (PyPath.mkPath "/" ["home"]). by split. }
  assert (H : PyPath.str (expert_folder "/home/user" "a")
              ∉ dirs (fresh_world {["/home"]}))
    by (change (PyPath.str (expert_folder "/home/user" "a")
                ∉ ({["/home"]} : gset string));
        apply not_elem_of_singleton; discriminate).
  split; [exact Hp|]. split; [exact Hd|]. split; [exact H|].
  exact (proj1 (proj2 (proj2 (proj2
           (create_expert_folder_makes_parents "a" "/home/user"
              (fresh_world {["/home"]}) Hp Hd H))))).
Defined.

(** X5. The folders of all experts are siblings: for an identifier without a
    slash the folder is named [tiff16_<expert>] and its parent is
    [Path(saving_dir/fivek_expert)], whatever the expert. This is why [main]
    may take [folder_dir.parent] from the folder of the last expert only. *)
Theorem expert_folders_are_siblings (saving_dir expert_id : string) :
  PyStr.has_char "/" expert_id = false ->
  PyPath.parent (expert_folder saving_dir expert_id)
  = PyPath.of_string (saving_dir +:+ "/fivek_expert")
  /\ PyPath.name (expert_folder saving_dir expert_id) = "tiff16_" +:+ expert_id.
Proof.
  intros Hid.
  destruct (expert_folder_components saving_dir expert_id)
    as (h & t & Hsplit & Hparts).
  rewrite (split_whole "/" expert_id Hid) in Hsplit.
  injection Hsplit as <- <-.
  change (List.filter PyPath.keeps []) with (@nil string) in Hparts.
  assert (Hparts' : PyPath.parts (expert_folder saving_dir expert_id)
            = ((List.filter PyPath.keeps (PyStr.split "/" saving_dir)
                ++ ["fivek_expert"]) ++ ["tiff16_" +:+ expert_id])%list)
    by (by rewrite Hparts, <- app_assoc).
  split.
  - unfold PyPath.parent. rewrite Hparts', List.removelast_last.
    unfold PyPath.of_string, expert_folder. simpl PyPath.root. f_equal.
    + apply (parse_root_base saving_dir
               ("ivek_expert/tiff16_" +:+ expert_id) "ivek_expert").
    + change (saving_dir +:+ "/fivek_expert")
        with (saving_dir +:+ String "/" "fivek_expert").
      by rewrite split_app_sep, List.filter_app.
  - unfold PyPath.name. rewrite Hparts'. apply List.last_last.
Qed.

Lemma expert_folders_are_siblings_witness :
  PyStr.has_char "/" "c" = false
  /\ PyPath.parent (expert_folder "/home/user" "c")
     = PyPath.of_string ("/home/user" +:+ "/fivek_expert").
Proof.
  split; [reflexivity|].
  exact (proj1 (expert_folders_are_siblings "/home/user" "c" eq_refl)).
Defined.

(* ===================================================================== *)
(** ** Further properties of the URL extractor *)
(* ===================================================================== *)

Section MatchShape.

Variable cls : string.

Lemma take_drop_id (k : nat) (s : string) :
  s = PyStr.take k s +:+ PyStr.drop k s.
Proof.
  revert s; induction k as [|k IH]; intros [|c s]; try reflexivity.
  change (String c s = String c (PyStr.take k s +:+ PyStr.drop k s)).
  f_equal. apply IH.
Qed.

Lemma take_app_length (a b : string) (j : nat) :
  PyStr.take (String.length a + j) (a +:+ b) = a +:+ PyStr.take j b.
Proof.
  induction a as [|c a IH]; [reflexivity|].
  change (String c (PyStr.take (String.length a + j) (a +:+ b))
          = String c (a +:+ PyStr.take j b)).
  f_equal. exact IH.
Qed.

Lemma length_append (a b : string) :
  String.length (a +:+ b) = (String.length a + String.length b)%nat.
Proof.
  induction a as [|c a IH]; [reflexivity|].
  change (S (String.length (a +:+ b)) = S (String.length a + String.length b)).
  by rewrite IH.
Qed.

Lemma take_length_bound (n : nat) (s : string) :
  (String.length (PyStr.take n s) <= n)%nat.
Proof.
  revert s; induction n as [|n IH]; intros [|c s]; simpl; try lia.
  specialize (IH s). lia.
Qed.

Lemma take_length_within (n : nat) (s : string) :
  (String.length (PyStr.take n s) <= String.length s)%nat.
Proof.
  revert s; induction n as [|n IH]; intros [|c s]; simpl; try lia.
  specialize (IH s). lia.
Qed.

Lemma drop_length (n : nat) (s : string) :
  String.length (PyStr.drop n s) = (String.length s - n)%nat.
Proof.
  revert s; induction n as [|n IH]; intros [|c s]; simpl; try lia. apply IH.
Qed.

(** What [\S*] keeps after giving characters back is still a run of
    non-whitespace characters. *)
Lemma nonspace_run_take (r : string) (k : nat) :
  (k <= Re.nonspace_run r)%nat ->
  PyStr.all_chars not_space (PyStr.take k r) = true
  /\ String.length (PyStr.take k r) = k.
Proof.
  revert r; induction k as [|k IH]; intros r Hk.
  - destruct r; split; reflexivity.
  - destruct r as [|c r]; simpl in Hk; [lia|].
    destruct (PyStr.is_space_re c) eqn:Hc; [lia|].
    destruct (IH r ltac:(lia)) as [Ha Hl].
    simpl. unfold not_space at 1. rewrite Hc, Ha, Hl. split; reflexivity.
Qed.

Lemma backtrack_inv (r : string) (n k : nat) :
  Re.backtrack r n = Some k -> (k <= n)%nat /\ Re.dot_tif_at r k = true.
Proof.
  induction n as [|n IH]; simpl.
  - destruct (Re.dot_tif_at r 0) eqn:Hd; [|discriminate].
    intros [= <-]. split; [lia | exact Hd].
  - destruct (Re.dot_tif_at r (S n)) eqn:Hd.
    + intros [= <-]. split; [lia | exact Hd].
    + intros H. destruct (IH H). split; [lia | assumption].
Qed.

Lemma dot_tif_at_inv (r : string) (k : nat) :
  Re.dot_tif_at r k = true ->
  exists d rest, PyStr.drop k r = String d ("tif" +:+ rest)
                 /\ d <> PyStr.newline.
Proof.
  unfold Re.dot_tif_at. destruct (PyStr.drop k r) as [|d r']; [discriminate|].
  intros H. apply andb_prop in H as [Hd Hp].
  apply prefix_split in Hp. exists d, (PyStr.drop 3 r').
  split; [by rewrite Hp at 1|].
  intros ->. by rewrite Ascii.eqb_refl in Hd.
Qed.

(** A match read as the pattern reads: the literal, a character of the
    class, a slash, non-whitespace characters, one character that is not a
    newline, and [tif]. *)
Lemma match_here_shape (s : string) (n : nat) :
  Re.match_here cls s = Some n ->
  exists c name d,
    PyStr.take n s
    = "img/tiff16_" +:+ String c (String "/" (name +:+ String d "tif"))
    /\ PyStr.has_char c cls = true
    /\ PyStr.all_chars not_space name = true
    /\ d <> PyStr.newline
    /\ n = (17 + String.length name)%nat.
Proof.
  intros H. destruct (match_here_inv cls s n H) as (c & r & k & -> & Hc & Hb & ->).
  destruct (backtrack_inv _ _ _ Hb) as [Hk Hd].
  destruct (dot_tif_at_inv _ _ Hd) as (d & rest & Hdrop & Hnl).
  destruct (nonspace_run_take r k Hk) as [Hns Hlen].
  exists c, (PyStr.take k r), d. repeat split; try assumption; [|lia].
  change (PyStr.take (13 + k + 4) ("img/tiff16_" +:+ String c (String "/" r)))
    with ("img/tiff16_" +:+ String c (String "/" (PyStr.take (k + 4) r))).
  do 3 f_equal.
  rewrite (take_drop_id k r) at 1. rewrite Hdrop.
  rewrite <- Hlen at 1. rewrite take_app_length. reflexivity.
Qed.

Lemma scan_disjoint (s : string) (pos skip : nat) :
  StronglySorted (fun a b => (match_end a <= Re.start b)%nat)
                 (Re.scan cls s pos skip).
Proof.
  revert pos skip; induction s as [|c s IH]; intros pos skip; simpl.
  - constructor.
  - destruct skip as [|k]; [|apply IH].
    destruct (Re.match_here cls (String c s)) as [n|]; [|apply IH].
    constructor; [apply IH|].
    apply Forall_forall. intros m Hm.
    apply scan_spec in Hm as [Hle _]. unfold match_end. simpl Re.start.
    simpl Re.group.
    pose proof (take_length_bound n (String c s)). lia.
Qed.

End MatchShape.

(** X6. For expert identifiers that are single letters or digits, as the
    class documents them: every match of the pattern in any text, hence
    every path the extractor yields, is the literal [img/tiff16_], the
    identifier of a configured expert, a slash, a run of non-whitespace
    characters, one character that is not a newline, and [tif]; its length
    is 17 plus the length of that run. *)
Theorem match_has_the_shape_of_the_pattern
    (experts : list string) (text : string) (m : Re.Match) :
  expert_ids_ok experts = true ->
  m ∈ Re.finditer (PyStr.join_empty experts) text ->
  exists c name d,
    Re.group m
    = "img/tiff16_" +:+ String c (String "/" (name +:+ String d "tif"))
    /\ String c "" ∈ experts
    /\ PyStr.all_chars not_space name = true
    /\ d <> PyStr.newline
    /\ String.length (Re.group m) = (17 + String.length name)%nat.
Proof.
  intros Hok Hm. destruct (scan_spec _ _ _ _ _ Hm) as (_ & n & Hn & Hg).
  destruct (match_here_shape _ _ _ Hn) as (c & name & d & Hs & Hc & Ha & Hd & _).
  exists c, name, d. rewrite Hg, Hs.
  split; [reflexivity|]. split; [by apply has_char_join|].
  split; [exact Ha|]. split; [exact Hd|].
  change (String.length
            ("img/tiff16_" +:+ String c (String "/" (name +:+ String d "tif"))))
    with (13 + String.length (name +:+ String d "tif"))%nat.
  rewrite length_append. simpl. lia.
Qed.

Lemma match_has_the_shape_of_the_pattern_witness :
  expert_ids_ok (expert_list script_crawler) = true
  /\ Re.mkMatch 0 "img/tiff16_a/a0289.tif"
     ∈ Re.finditer (PyStr.join_empty (expert_list script_crawler)) two_entries
  /\ exists c name d,
       "img/tiff16_a/a0289.tif"
       = "img/tiff16_" +:+ String c (String "/" (name +:+ String d "tif"))
       /\ String c "" ∈ expert_list script_crawler
       /\ PyStr.all_chars not_space name = true
       /\ d <> PyStr.newline
       /\ String.length "img/tiff16_a/a0289.tif" = (17 + String.length name)%nat.
Proof.
  assert (H : Re.mkMatch 0 "img/tiff16_a/a0289.tif"
              ∈ Re.finditer (PyStr.join_empty (expert_list script_crawler))
                  two_entries)
    by (vm_compute; apply list_elem_of_here).
  split; [reflexivity|]. split; [exact H|].
  exact (match_has_the_shape_of_the_pattern (expert_list script_crawler)
           two_entries _ eq_refl H).
Defined.

(** X7. The matches [finditer] reports do not overlap and lie within the
    text: each one ends at or before the start of the next, and the last
    one at or before the end of the text. *)
Theorem matches_do_not_overlap (cls text : string) :
  StronglySorted (fun a b => (match_end a <= Re.start b)%nat)
                 (Re.finditer cls text)
  /\ Forall (fun m => (match_end m <= String.length text)%nat)
            (Re.finditer cls text).
Proof.
  split; [apply scan_disjoint|].
  apply Forall_forall. intros m Hm.
  destruct (scan_spec _ _ _ _ _ Hm) as (_ & n & Hn & Hg).
  rewrite Nat.sub_0_r in Hn, Hg. unfold match_end. rewrite Hg.
  pose proof (take_length_within n (PyStr.drop (Re.start m) text)) as Hw.
  rewrite drop_length in Hw.
  assert (Re.start m < String.length text)%nat; [|lia].
  destruct (Nat.lt_ge_cases (Re.start m) (String.length text)) as [|Hge];
    [assumption|].
  exfalso. pose proof (drop_length (Re.start m) text) as Hd.
  destruct (PyStr.drop (Re.start m) text); [discriminate Hn | simpl in Hd; lia].
Qed.

Section Completeness.

Variable self : FivekCrawler.

Lemma select_complete (ms : list Re.Match) :
  ending (select self ms) = None ->
  yielded (select self ms)
  = (fun m => PStr (Re.group m)) <$> List.filter (selected self) ms.
Proof.
  induction ms as [|m ms IH]; simpl; [reflexivity|].
  unfold selected at 1.
  destruct (url_index m) as [i|]; [|discriminate].
  destruct ((image_from self <=? i) && (i <=? image_to self)); simpl;
    intros H; by rewrite IH.
Qed.

End Completeness.

(** X8. When the extractor runs to its end it has skipped nothing: it yields
    exactly the matches whose index lies within [image_from] and
    [image_to], both included, in the order of the text. *)
Theorem extractor_yields_every_match_in_range
    (self : FivekCrawler) (web_html : string) :
  let matches := Re.finditer (PyStr.join_empty (expert_list self)) web_html in
  let urls := _get_expert_images_url self (Some web_html) in
  ending urls = None ->
  yielded urls
  = (fun m => PStr (Re.group m)) <$> List.filter (selected self) matches.
Proof.
  intros matches urls. subst urls matches. unfold _get_expert_images_url.
  destruct (String.eqb _ ""); [discriminate|]. apply select_complete.
Qed.

Lemma extractor_yields_every_match_in_range_witness :
  ending (_get_expert_images_url script_crawler (Some two_entries)) = None
  /\ yielded (_get_expert_images_url script_crawler (Some two_entries))
     = (fun m => PStr (Re.group m))
       <$> List.filter (selected script_crawler)
             (Re.finditer "abcde" two_entries).
Proof.
  split; [reflexivity|].
  exact (extractor_yields_every_match_in_range script_crawler two_entries
           eq_refl).
Defined.

(* ===================================================================== *)
(** ** Further properties of the download worker *)
(* ===================================================================== *)

Section WorkerBounds.

Variable net : list request -> request -> reply.
Variables url image_path : string.

Lemma loop_answers_frame (fuel : nat) (retry : Z) (w : world)
    (st : Z) (body : string) :
  retry < 3 ->
  attempt (dirs w) image_path (net (sent w) (image_request url))
  = Answers st body ->
  exists w1, download_loop net (S fuel) retry url image_path w = (Return tt, w1)
             /\ sent w1 = image_request url :: sent w
             /\ dirs w1 = dirs w /\ heap w1 = heap w
             /\ incomplete_images w1 = incomplete_images w
             /\ queue w1 = queue w /\ futures_made w1 = futures_made w.
Proof.
  intros Hretry Ha. unfold attempt in Ha. simpl download_loop.
  replace (retry <? 3) with true by (symmetry; apply Z.ltb_lt; lia).
  unfold bind at 1. unfold rq_get at 1.
  destruct (net (sent w) (image_request url)) as [st' body'|e|part e];
    [|discriminate|];
    (destruct (can_open (dirs w) image_path) eqn:Hopen; [|discriminate]);
    [|discriminate].
  unfold bind at 1. unfold open_wb at 1. simpl dirs. rewrite Hopen.
  unfold bind, sleep, emit. simpl.
  eexists. split; [reflexivity|]. simpl. repeat split.
Qed.

Lemma download_image_after (k : nat) (w : world) :
  (k < 3)%nat ->
  (forall j, (j < k)%nat ->
     times_out (attempt (dirs w) image_path
                  (net (replicate j (image_request url) ++ sent w)%list
                       (image_request url))) = true) ->
  (times_out (attempt (dirs w) image_path
                (net (replicate k (image_request url) ++ sent w)%list
                     (image_request url))) = true -> k = 2%nat) ->
  worker_effect url image_path w (S k) (download_image net url image_path w).1
                (download_image net url image_path w).2.
Proof.
  intros Hk Hto Hlast.
  destruct (loop_timeouts net url image_path k (S (2 - k)) 0 w)
    as (w' & Hrun & Hadv & Hheap); [lia | exact Hto |].
  replace (k + S (2 - k))%nat with 3%nat in Hrun by lia.
  change (download_image net url image_path w
          = download_loop net (S (2 - k)) (0 + Z.of_nat k) url image_path w')
    in Hrun.
  rewrite Hrun.
  assert (Hat : attempt (dirs w) image_path
                  (net (replicate k (image_request url) ++ sent w)%list
                       (image_request url))
                = attempt (dirs w') image_path
                    (net (sent w') (image_request url)))
    by (by rewrite (adv_sent _ _ _ _ Hadv), (adv_dirs _ _ _ _ Hadv)).
  rewrite Hat in Hlast.
  assert (Hfw : failures w' = failures w)
    by (apply failures_kept; [apply (adv_ref _ _ _ _ Hadv) | exact Hheap]).
  assert (Hstep : forall r w1, advanced url 1 w' w1 -> r <> OutOfFuel ->
            (heap w1 = heap w'
             \/ (r = Return tt
                 /\ heap w1 = <[incomplete_images w' :=
                                  (failures w' ++ [(url, image_path)])%list]>
                                (heap w'))) ->
            worker_effect url image_path w (S k) r w1).
  { intros r w1 Hadv1 Hr Hh.
    pose proof (advanced_trans url k 1 w w' w1 Hadv Hadv1) as Hall.
    replace (k + 1)%nat with (S k) in Hall by lia.
    destruct Hall as [Hs Hd Hi Hq Hf _].
    repeat split; try assumption.
    rewrite Hfw, Hheap, (adv_ref _ _ _ _ Hadv) in Hh. exact Hh. }
  destruct (reply_cases (attempt (dirs w') image_path
                           (net (sent w') (image_request url))))
    as [Hc|[Hc|[(st & body & Hc)|(e & Hc)]]].
  - pose proof (Hlast Hc) as ->.
    destruct (loop_third_timeout net url image_path 0 w' Hc)
      as (w1 & Hl & Hadv1 & Hh1).
    replace (download_loop net (S (2 - 2)) (0 + Z.of_nat 2) url image_path w')
      with (Return tt, w1) by (symmetry; exact Hl).
    apply Hstep; [exact Hadv1 | discriminate | right; by split].
  - destruct (loop_fails_for_good net url image_path (2 - k) (0 + Z.of_nat k) w')
      as (w1 & -> & Hadv1 & Hh1); [lia | exact Hc |].
    apply Hstep; [exact Hadv1 | discriminate | right; by split].
  - destruct (loop_answers_frame (2 - k) (0 + Z.of_nat k) w' st body)
      as (w1 & -> & Hs1 & Hd1 & Hh1 & Hi1 & Hq1 & Hf1); [lia | exact Hc |].
    destruct Hadv as [Hs Hd Hi Hq Hf _].
    unfold worker_effect. simpl.
    split; [by rewrite Hs1, Hs|].
    split; [congruence|]. split; [congruence|]. split; [congruence|].
    split; [congruence|]. split; [discriminate|]. left. congruence.
  - destruct (loop_escapes net url image_path (2 - k) (0 + Z.of_nat k) w' e)
      as (w1 & -> & Hadv1 & Hh1); [lia | exact Hc |].
    apply Hstep; [exact Hadv1 | discriminate | by left].
Qed.

(** Whatever the network does, one invocation makes one, two or three
    requests and has the effect described by [worker_effect]. *)
Lemma download_image_effect (w : world) :
  exists n, (1 <= n <= 3)%nat
            /\ worker_effect url image_path w n (download_image net url image_path w).1
                             (download_image net url image_path w).2.
Proof.
  destruct (times_out (attempt (dirs w) image_path
                         (net (sent w) (image_request url)))) eqn:H0.
  - destruct (times_out (attempt (dirs w) image_path
                           (net (image_request url :: sent w)
                                (image_request url)))) eqn:H1.
    + exists 3%nat. split; [lia|]. apply download_image_after; [lia| |auto].
      intros [|[|j]] Hj; [exact H0 | exact H1 | lia].
    + exists 2%nat. split; [lia|]. apply download_image_after; [lia| |].
      * intros [|j] Hj; [exact H0 | lia].
      * simpl. congruence.
  - exists 1%nat. split; [lia|]. apply download_image_after; [lia| |].
    + intros j Hj. lia.
    + simpl. congruence.
Qed.

End WorkerBounds.

(** X9. Whatever the network does, one call of [download_image] ends after
    one, two or three requests, all of them the same streaming GET of the
    image with a timeout of 5; it leaves the directories, the pool and every
    other list object as they were, and the Failure List either as it was
    or with the one pair [(url, image_path)] appended, in which case the
    call returned normally. *)
Theorem download_image_is_bounded
    (net : list request -> request -> reply)
    (url image_path : string) (w : world) :
  valid_ref w ->
  let run := download_image net url image_path w in
  run.1 <> OutOfFuel
  /\ (exists n, (1 <= n <= 3)%nat
                /\ sent run.2
                   = (replicate n (mkRequest (fivek_src +:+ "/" +:+ url) 5 true)
                      ++ sent w)%list)
  /\ dirs run.2 = dirs w
  /\ queue run.2 = queue w
  /\ incomplete_images run.2 = incomplete_images w
  /\ (forall l, l <> incomplete_images w -> heap run.2 !! l = heap w !! l)
  /\ (failures run.2 = failures w
      \/ (run.1 = Return tt
          /\ failures run.2 = (failures w ++ [(url, image_path)])%list)).
Proof.
  intros Hv run.
  destruct (download_image_effect net url image_path w)
    as (n & Hn & Hs & Hd & Hi & Hq & Hf & Hr & Hh).
  fold run in Hs, Hd, Hi, Hq, Hf, Hr, Hh.
  split; [exact Hr|]. split; [by exists n|].
  repeat split; try assumption.
  - intros l Hl. destruct Hh as [->|[_ ->]]; [reflexivity|].
    by rewrite list_lookup_insert_ne.
  - destruct Hh as [Hh|[Hret Hh]].
    + left. by apply failures_kept.
    + right. split; [exact Hret|]. by apply failures_recorded.
Qed.

Lemma download_image_is_bounded_witness :
  valid_ref (fresh_world ∅)
  /\ (download_image net_unreachable "img/tiff16_a/a0289.tif"
        "/home/user/fivek_expert/tiff16_a/a0289.tif" (fresh_world ∅)).1
     <> OutOfFuel.
Proof.
  assert (Hv : valid_ref (fresh_world ∅)) by (by eexists).
  split; [exact Hv|].
  exact (proj1 (download_image_is_bounded net_unreachable
                  "img/tiff16_a/a0289.tif"
                  "/home/user/fivek_expert/tiff16_a/a0289.tif"
                  (fresh_world ∅) Hv)).
Defined.

(* ===================================================================== *)
(** ** Further properties of [main] *)
(* ===================================================================== *)

Section MainOutline.

Variable net : list request -> request -> reply.
Variable self : FivekCrawler.

Lemma make_request_frame (timeout : Z) (w : world) :
  sent (_make_request net timeout w).2
  = mkRequest fivek_src timeout false :: sent w
  /\ dirs (_make_request net timeout w).2 = dirs w
  /\ heap (_make_request net timeout w).2 = heap w
  /\ incomplete_images (_make_request net timeout w).2 = incomplete_images w
  /\ queue (_make_request net timeout w).2 = queue w.
Proof.
  unfold _make_request, bind, sleep, emit, rq_get, print. simpl.
  destruct (net _ _) as [st body|e|part e]; simpl;
    [destruct (st =? 200)
    |destruct (is_RequestException e); [|destruct (is_Exception e)]
    |destruct (is_RequestException e); [|destruct (is_Exception e)]];
    simpl; repeat split.
Qed.

Lemma create_expert_folder_frame (expert_id saving_dir : string) (w : world) :
  let run := _create_expert_folder expert_id saving_dir w in
  run.1 = Return (expert_folder saving_dir expert_id)
  /\ sent run.2 = sent w /\ heap run.2 = heap w
  /\ incomplete_images run.2 = incomplete_images w /\ queue run.2 = queue w
  /\ dirs w ⊆ dirs run.2
  /\ PyPath.str (expert_folder saving_dir expert_id) ∈ dirs run.2.
Proof.
  intros run. subst run.
  unfold _create_expert_folder, bind, try_except, mkdir_parents, print, emit.
  fold (expert_folder saving_dir expert_id).
  case_bool_decide as Hin; simpl; repeat split; try done.
  - apply union_subseteq_l.
  - apply elem_of_union. right. apply elem_of_list_to_set.
    apply list_elem_of_fmap_2, lineage_self, expert_folder_parts.
Qed.

Lemma create_folders_frame (experts : list string) :
  forall (folder_dir : option PyPath.Path) (w : world),
    let run := create_folders self experts folder_dir w in
    (exists d, run.1 = Return d)
    /\ sent run.2 = sent w /\ heap run.2 = heap w
    /\ incomplete_images run.2 = incomplete_images w /\ queue run.2 = queue w
    /\ dirs w ⊆ dirs run.2
    /\ (forall e, e ∈ experts ->
          PyPath.str (expert_folder (saving_dir self) e) ∈ dirs run.2).
Proof.
  induction experts as [|i experts IH]; intros folder_dir w; simpl.
  - split; [by eexists|]. repeat split; [done|].
    intros e He. apply elem_of_nil in He as [].
  - unfold bind.
    destruct (create_expert_folder_frame i (saving_dir self) w)
      as (Hr & Hs & Hh & Hi & Hq & Hd & Hin).
    destruct (_create_expert_folder i (saving_dir self) w) as [r w1].
    simpl in *. subst r.
    destruct (IH (Some (expert_folder (saving_dir self) i)) w1)
      as (Hr' & Hs' & Hh' & Hi' & Hq' & Hd' & Hin').
    split; [exact Hr'|]. split; [congruence|]. split; [congruence|].
    split; [congruence|]. split; [congruence|]. split; [set_solver|].
    intros e He. apply elem_of_cons in He as [->|He]; [set_solver | by apply Hin'].
Qed.

(** The course of [main] on a crawler whose Failure List is empty: one
    request; when the fetch raises, that is the end and nothing is
    created; otherwise the folders are made and the outcome is that of the
    bulk phase. *)
Lemma main_outline (fuel : nat) (w : world) :
  queue w = [] -> failures w = [] ->
  exists r w',
    main net self fuel w = (r, w')
    /\ sent w' = mkRequest fivek_src 5 false :: sent w
    /\ dirs w ⊆ dirs w'
    /\ match (_make_request net 5 w).1 with
       | Return web_html =>
           (forall e, e ∈ expert_list self ->
              PyPath.str (expert_folder (saving_dir self) e) ∈ dirs w')
           /\ (r = Return tt ->
               0 < max_workers self
               /\ _get_expert_images_url self web_html = Stop)
           /\ (0 < max_workers self ->
               _get_expert_images_url self web_html = Stop -> r = Return tt)
       | Raise e => r = Raise e /\ dirs w' = dirs w
       | OutOfFuel => False
       end.
Proof.
  intros Hqueue Hfail. unfold main. unfold bind at 1.
  destruct (make_request_frame 5 w) as (Hs1 & Hd1 & Hh1 & Hi1 & Hq1).
  destruct (make_request_quiet net 5 w) as (_ & Hr1).
  destruct (_make_request net 5 w) as [[web_html|e|] w1]; simpl in *;
    [|eexists _, _; split; [reflexivity|]; repeat split; [done|set_solver|done]
     | done].
  unfold bind at 1.
  destruct (create_folders_frame (expert_list self) None w1)
    as ((d & Hd) & Hs2 & Hh2 & Hi2 & Hq2 & Hd2 & Hin2).
  destruct (create_folders self (expert_list self) None w1) as [r2 w2].
  simpl in *. subst r2.
  destruct (bulk_phase_strings net self (_get_expert_images_url self web_html)
              d (total_images self) w2 (extractor_strings_only self web_html))
    as (w3 & Hrun & Hs3 & Hd3 & Hh3 & Hi3 & Hq3 & _ & _); [congruence|].
  unfold bind at 1. rewrite Hrun.
  assert (Hsent : sent w3 = mkRequest fivek_src 5 false :: sent w) by congruence.
  assert (Hdirs : dirs w ⊆ dirs w3) by (rewrite Hd3, <- Hd1; exact Hd2).
  assert (Hfold : forall e, e ∈ expert_list self ->
            PyPath.str (expert_folder (saving_dir self) e) ∈ dirs w3)
    by (intros e He; rewrite Hd3; by apply Hin2).
  destruct (max_workers self <=? 0) eqn:Hw;
    rewrite ?Z.leb_le, ?Z.leb_gt in Hw.
  { eexists _, _. split; [reflexivity|]. repeat split; try done.
    all: intros; first [discriminate | lia]. }
  destruct (_get_expert_images_url self web_html) as [|u rest|e] eqn:Hurls;
    simpl.
  - unfold retry_failures, bind, get_incomplete_images, new_list,
      set_incomplete_images. simpl.
    rewrite cleanup_nothing.
    + eexists _, _. split; [reflexivity|]. simpl. repeat split; done.
    + simpl. apply lookup_new_list. rewrite Hh3, Hh2, Hh1, Hi3, Hi2, Hi1.
      exact Hfail.
  - destruct d; (eexists _, _; split; [reflexivity|]; repeat split; try done;
                 intros; discriminate).
  - eexists _, _. split; [reflexivity|]. repeat split; try done;
      intros; discriminate.
Qed.

End MainOutline.

Lemma make_request_returns_body
    (net : list request -> request -> reply) (timeout : Z) (w : world)
    (html : string) :
  (_make_request net timeout w).1 = Return (Some html) ->
  net (sent w) (mkRequest fivek_src timeout false) = Answers 200 html.
Proof.
  unfold _make_request, bind, sleep, emit, rq_get, print. simpl.
  destruct (net _ _) as [st body|e|part e]; simpl;
    [destruct (st =? 200) eqn:Hst
    |destruct (is_RequestException e); [|destruct (is_Exception e)]
    |destruct (is_RequestException e); [|destruct (is_Exception e)]];
    simpl; try discriminate.
  intros [= ->]. apply Z.eqb_eq in Hst as ->. reflexivity.
Qed.

Lemma gen_stop_iff {A} (g : gen A) :
  g = Stop <-> yielded g = [] /\ ending g = None.
Proof.
  destruct g; simpl; split; try done; intros [? ?]; discriminate.
Qed.

Lemma extractor_None_not_stop (self : FivekCrawler) :
  _get_expert_images_url self None <> Stop.
Proof.
  unfold _get_expert_images_url. by destruct (String.eqb _ "").
Qed.

(** X10. Whatever the network, the listing and the disk: a run of [main] on a
    crawler whose Failure List is empty makes exactly one HTTP request, the
    GET of the listing, and never requests an image; it never removes a
    directory; and it returns normally exactly when the listing came with
    status 200, the pool size is positive and the extractor ends without a
    URL and without an exception, that is when there is nothing to
    download. *)
Theorem main_requests_only_the_listing
    (net : list request -> request -> reply) (self : FivekCrawler)
    (fuel : nat) (w : world) :
  queue w = [] -> failures w = [] ->
  let run := main net self fuel w in
  sent run.2 = mkRequest fivek_src 5 false :: sent w
  /\ dirs w ⊆ dirs run.2
  /\ (run.1 = Return tt <->
      exists html,
        net (sent w) (mkRequest fivek_src 5 false) = Answers 200 html
        /\ 0 < max_workers self
        /\ yielded (_get_expert_images_url self (Some html)) = []
        /\ ending (_get_expert_images_url self (Some html)) = None).
Proof.
  intros Hq Hf run.
  destruct (main_outline net self fuel w Hq Hf) as (r & w' & Hmain & Hs & Hd & Hcase).
  subst run. rewrite Hmain. simpl. split; [exact Hs|]. split; [exact Hd|].
  split.
  - intros ->.
    destruct (_make_request net 5 w) as [[web_html|e|] w1] eqn:Hfetch;
      simpl in Hcase; [|by destruct Hcase | done].
    destruct Hcase as (_ & Hret & _). destruct (Hret eq_refl) as [Hw Hstop].
    destruct web_html as [html|]; [|by apply extractor_None_not_stop in Hstop].
    exists html. apply gen_stop_iff in Hstop as [Hy He].
    repeat split; try assumption.
    apply make_request_returns_body. by rewrite Hfetch.
  - intros (html & Hnet & Hw & Hy & He).
    destruct (make_request_200 net 5 w html Hnet) as [Hr _].
    rewrite Hr in Hcase. destruct Hcase as (_ & _ & Hret).
    apply Hret; [exact Hw | by apply gen_stop_iff].
Qed.

Lemma main_requests_only_the_listing_witness :
  (queue (fresh_world ∅) = [] /\ failures (fresh_world ∅) = [])
  /\ sent (main (net_serving two_entries) script_crawler 1 (fresh_world ∅)).2
     = [mkRequest fivek_src 5 false].
Proof.
  split; [split; reflexivity|].
  exact (proj1 (main_requests_only_the_listing (net_serving two_entries)
                  script_crawler 1 (fresh_world ∅) eq_refl eq_refl)).
Defined.

(** X11. A run of [main] on a crawler whose Failure List is empty prepares
    the disk before it looks at the listing. On a response of a status
    other than 200 it ends with [SystemExit] and creates nothing. In every
    other case where the fetch returns, with the body of a 200 response or
    with [None] after an [Exception] of the GET, the folder of every expert
    exists when the run ends, whether or not anything was downloaded. *)
Theorem main_prepares_every_folder
    (net : list request -> request -> reply) (self : FivekCrawler)
    (fuel : nat) (w : world) :
  queue w = [] -> failures w = [] ->
  let run := main net self fuel w in
  let answer := net (sent w) (mkRequest fivek_src 5 false) in
  (forall st body, answer = Answers st body -> st <> 200 ->
     run.1 = Raise SystemExit /\ dirs run.2 = dirs w)
  /\ ((exists html, answer = Answers 200 html)
      \/ (exists e, raised answer = Some e /\ is_Exception e = true) ->
      forall e, e ∈ expert_list self ->
        PyPath.str (expert_folder (saving_dir self) e) ∈ dirs run.2).
Proof.
  intros Hq Hf run answer.
  destruct (main_outline net self fuel w Hq Hf) as (r & w' & Hmain & Hs & Hd & Hcase).
  subst run answer. rewrite Hmain. simpl. split.
  - intros st body Hnet Hst.
    destruct (make_request_other_status net 5 w st body Hnet Hst) as [Hr _].
    rewrite Hr in Hcase. exact Hcase.
  - intros [(html & Hnet)|(e & He & Hex)].
    + destruct (make_request_200 net 5 w html Hnet) as [Hr _].
      rewrite Hr in Hcase. apply Hcase.
    + destruct (make_request_raises net 5 w e He Hex) as [Hr _].
      rewrite Hr in Hcase. apply Hcase.
Qed.

Lemma main_prepares_every_folder_witness :
  (queue (fresh_world ∅) = [] /\ failures (fresh_world ∅) = [])
  /\ (forall e, e ∈ expert_list script_crawler ->
        PyPath.str (expert_folder (saving_dir script_crawler) e)
        ∈ dirs (main net_unreachable script_crawler 1 (fresh_world ∅)).2).
Proof.
  split; [split; reflexivity|].
  refine (proj2 (main_prepares_every_folder net_unreachable script_crawler 1
                   (fresh_world ∅) eq_refl eq_refl) _).
  right. exists ConnectionError. split; reflexivity.
Defined.

(* ===================================================================== *)
(** ** Further properties of the pool and of the cleanup phases *)
(* ===================================================================== *)

Lemma pool_events_app (l l' : list event) :
  pool_events (l ++ l') = (pool_events l ++ pool_events l')%list.
Proof. apply List.filter_app. Qed.

Lemma submitted_pool_events (l : list event) :
  submitted (pool_events l) = submitted l.
Proof.
  unfold pool_events. induction l as [|e l IH]; [reflexivity|].
  destruct e; simpl; by rewrite ?IH.
Qed.

Lemma pool_events_submit (rs : list task) :
  pool_events (Submit <$> rs) = Submit <$> rs.
Proof.
  unfold pool_events. induction rs as [|t rs IH]; [reflexivity|].
  simpl. f_equal. exact IH.
Qed.



(** [as_completed] takes the set of its futures. *)
Lemma remove_dups_replicate (n : nat) (f : nat) :
  remove_dups (replicate n f) = match n with O => [] | S _ => [f] end.
Proof.
  induction n as [|n IH]; [reflexivity|].
  simpl. destruct n as [|n].
  - simpl. destruct (decide_rel elem_of f []) as [H|H]; [|reflexivity].
    by apply elem_of_nil in H.
  - destruct (decide_rel elem_of f (replicate (S n) f)) as [H|H];
      [exact IH|].
    exfalso. apply H. simpl. apply list_elem_of_here.
Qed.

Lemma lookup_fresh_list (h : list (list task)) (i : nat) :
  default [] ((h ++ [[]])%list !! i) = default [] (h !! i).
Proof.
  destruct (h !! i) as [x|] eqn:Hx; simpl.
  - by rewrite (lookup_app_l_Some _ _ _ _ Hx).
  - apply lookup_ge_None in Hx.
    destruct (decide (i = length h)) as [->|Hne].
    + by rewrite list_lookup_middle.
    + rewrite lookup_ge_None_2; [reflexivity|]. rewrite length_app. simpl. lia.
Qed.

Section PoolFacts.

Variable net : list request -> request -> reply.
Variable self : FivekCrawler.

(** [ok] marks tasks whose image the network serves whenever asked. With
    [ok] nowhere true the lemmas hold of every network. *)
Variable ok : task -> bool.
Hypothesis Hok : forall t, ok t = true -> always_answered net t.

Lemma unmarked_app (l l' : list task) :
  unmarked ok (l ++ l') = (unmarked ok l ++ unmarked ok l')%list.
Proof. apply List.filter_app. Qed.

Lemma unmarked_sublist (l : list task) : unmarked ok l `sublist_of` l.
Proof.
  induction l as [|t l IH]; simpl; [constructor|].
  destruct (ok t); simpl; by constructor.
Qed.

Lemma unmarked_none (l : list task) :
  Forall (fun t => ok t = true) l -> unmarked ok l = [].
Proof.
  induction 1 as [|t l Ht _ IH]; [reflexivity|].
  simpl. by rewrite Ht.
Qed.

(** A worker does nothing of what the main thread does. *)
Lemma download_loop_log (url image_path : string) (fuel : nat) :
  forall (retry : Z) (w : world),
    exists l, log (download_loop net fuel retry url image_path w).2
              = (log w ++ l)%list
              /\ pool_events l = [].
Proof.
  induction fuel as [|fuel IH]; intros retry w; simpl.
  - exists []. split; [|reflexivity].
    destruct (retry <? 3); simpl; by rewrite app_nil_r.
  - destruct (retry <? 3); [|exists []; simpl; split; [by rewrite app_nil_r | reflexivity]].
    unfold bind at 1. unfold rq_get at 1.
    destruct (net (sent w) (image_request url)) as [st body|e|part e].
    + unfold bind at 1. unfold open_wb at 1. simpl dirs.
      destruct (can_open (dirs w) image_path);
        unfold bind, emit, sleep; simpl; eexists;
        (split; [rewrite <- ?app_assoc; reflexivity | reflexivity]).
    + destruct (is_Timeout e); [destruct (retry + 1 =? 3)|
                                destruct (is_RequestException e)];
        unfold bind, print, print_noend, emit, append_incomplete,
          get_incomplete_images, list_append, raise; simpl;
        try (eexists; split; [rewrite <- ?app_assoc; reflexivity | reflexivity]);
        match goal with
        | |- context [download_loop net fuel ?r url image_path ?w1] =>
            destruct (IH r w1) as (l & -> & Hl)
        end; simpl;
        (eexists; split; [rewrite <- !app_assoc; reflexivity|]);
        simpl; exact Hl.
    + unfold bind at 1. unfold open_wb at 1. simpl dirs.
      destruct (can_open (dirs w) image_path);
        [|simpl; eexists; split; [reflexivity | reflexivity]].
      destruct (is_Timeout e); [destruct (retry + 1 =? 3)|
                                destruct (is_RequestException e)];
        unfold bind, print, print_noend, emit, append_incomplete,
          get_incomplete_images, list_append, raise; simpl;
        try (eexists; split; [rewrite <- ?app_assoc; reflexivity | reflexivity]);
        match goal with
        | |- context [download_loop net fuel ?r url image_path ?w1] =>
            destruct (IH r w1) as (l & -> & Hl)
        end; simpl;
        (eexists; split; [rewrite <- !app_assoc; reflexivity|]);
        simpl; exact Hl.
Qed.

Lemma ran_refl (w : world) : ran w w [] [].
Proof.
  constructor; try reflexivity.
  - exists []. split; [by rewrite app_nil_r | constructor].
  - exists []. split; [by rewrite app_nil_r | reflexivity].
Qed.

Lemma ran_valid (w w' : world) (trace : list event) (pool : list task) :
  ran w w' trace pool -> valid_ref w -> valid_ref w'.
Proof.
  intros [Hi _ Hl _ _ _] Hv. unfold valid_ref in *.
  apply lookup_lt_is_Some. apply lookup_lt_is_Some in Hv. congruence.
Qed.

Lemma ran_trans (w w1 w2 : world) (s1 s2 : list event) (p1 p2 : list task) :
  ran w w1 s1 p1 -> ran w1 w2 s2 p2 -> ran w w2 (s1 ++ s2) (p1 ++ p2).
Proof.
  intros [Hi Hd Hl Ho (x & Hx & Hxs) (l & Hlog & Hsub)]
         [Hi' Hd' Hl' Ho' (x' & Hx' & Hxs') (l' & Hlog' & Hsub')].
  constructor; try congruence.
  - intros k Hk. rewrite Ho' by congruence. by apply Ho.
  - exists (x ++ x')%list. split; [by rewrite Hx', Hx, app_assoc|].
    by apply sublist_app.
  - exists (l ++ l')%list. split; [by rewrite Hlog', Hlog, app_assoc|].
    by rewrite pool_events_app, Hsub, Hsub'.
Qed.

Lemma ran_weaken (w w' : world) (trace : list event) (pool pool' : list task) :
  ran w w' trace pool -> pool `sublist_of` pool' -> ran w w' trace pool'.
Proof.
  intros [Hi Hd Hl Ho (x & Hx & Hxs) Hlog] Hp. constructor; try assumption.
  exists x. split; [exact Hx | by etrans].
Qed.

Lemma emit_ran (e : event) (w : world) :
  ran w (emit e w).2 (pool_events [e]) [] /\ queue (emit e w).2 = queue w
  /\ (emit e w).1 = Return tt.
Proof.
  unfold emit. simpl. split; [|by split].
  constructor; try reflexivity.
  - exists []. split; [by rewrite app_nil_r | constructor].
  - by exists [e].
Qed.

Lemma submit_ran (t : task) (w : world) :
  ran w (submit t w).2 [Submit t] []
  /\ queue (submit t w).2 = (queue w ++ [(futures_made w, t)])%list
  /\ (submit t w).1 = Return (futures_made w).
Proof.
  unfold submit. simpl. split; [|by split].
  constructor; try reflexivity.
  - exists []. split; [by rewrite app_nil_r | constructor].
  - by exists [Submit t].
Qed.

(** A worker that ran: the Failure List has the task once more, or is as
    it was, and it is as it was when the image is served. *)
Lemma run_worker_ran (t : task) (w : world) :
  valid_ref w ->
  ran w (run_worker net t w).2 [] (unmarked ok [t])
  /\ queue (run_worker net t w).2 = queue w
  /\ (run_worker net t w).1 = Return tt.
Proof.
  intros Hv. pose proof (Hok t) as Hserved.
  destruct t as [url image_path]. unfold run_worker. simpl.
  destruct (download_image_effect net url image_path w)
    as (n & _ & _ & Hd & Hi & Hq & _ & Hr & Hh).
  destruct (download_loop_log url image_path 3 0 w) as (l & Hl & Hs).
  change (download_loop net 3 0 url image_path w)
    with (download_image net url image_path w) in Hl.
  assert (Hheap : ok (url, image_path) = true ->
                  heap (download_image net url image_path w).2 = heap w).
  { intros Ht. destruct (Hserved Ht (sent w)) as (st & body & Ha).
    exact (loop_answered_heap net url image_path 3 0 w st body Ha). }
  destruct (download_image net url image_path w) as [r w'].
  simpl in *.
  assert (Hran : ran w w' [] (if negb (ok (url, image_path))
                              then [(url, image_path)] else [])).
  { constructor; try assumption.
    - destruct Hh as [->|[_ ->]]; [reflexivity | by rewrite length_insert].
    - intros k Hk. destruct Hh as [->|[_ ->]]; [reflexivity|].
      by rewrite list_lookup_insert_ne.
    - destruct (ok (url, image_path)).
      + exists []. split; [|constructor].
        rewrite app_nil_r. apply failures_kept; [exact Hi | by apply Hheap].
      + destruct Hh as [Hh|[_ Hh]].
        * exists []. split; [|apply sublist_nil_l].
          rewrite app_nil_r. by apply failures_kept.
        * exists [(url, image_path)].
          split; [by apply failures_recorded | done].
    - by exists l. }
  destruct r; simpl; [by split | by split | done].
Qed.

Lemma run_all_ran (work : list (nat * task)) :
  forall w, valid_ref w ->
    ran w (run_all net work w).2 [] (unmarked ok (work.*2))
    /\ queue (run_all net work w).2 = queue w
    /\ (run_all net work w).1 = Return tt.
Proof.
  induction work as [|[f t] work IH]; intros w Hv.
  - simpl. split; [apply ran_refl | by split].
  - change (((f, t) :: work).*2) with ([t] ++ work.*2)%list.
    rewrite unmarked_app. simpl run_all. unfold bind.
    destruct (run_worker_ran t w Hv) as (Hran & Hq & Hr).
    destruct (run_worker net t w) as [r w1].
    simpl in Hran, Hq, Hr. subst r.
    destruct (IH w1 (ran_valid _ _ _ _ Hran Hv)) as (Hran' & Hq' & Hr').
    split; [|split; [congruence | exact Hr']].
    exact (ran_trans _ _ _ [] [] _ _ Hran Hran').
Qed.

(** Leaving the pool, or waiting for a future that is not done, runs all
    the work that waits. *)
Lemma drain_ran (w : world) :
  valid_ref w ->
  ran w (drain net w).2 [] (unmarked ok ((queue w).*2))
  /\ queue (drain net w).2 = []
  /\ (drain net w).1 = Return tt.
Proof.
  intros Hv. unfold drain.
  destruct (run_all_ran (queue w)
              (mkWorld (sent w) (dirs w) (heap w) (incomplete_images w) []
                       (futures_made w) (log w)) Hv) as (Hran & Hq & Hr).
  split; [|by split]. destruct Hran. by constructor.
Qed.

(** With [future] bound, the loop of line 209 submits every element and
    appends the same future each time. *)
Lemma resubmit_ran (f : nat) (rs : list task) :
  forall (futures : list nat) (w : world),
    ran w (resubmit rs futures (Some f) w).2 (Submit <$> rs) []
    /\ (queue (resubmit rs futures (Some f) w).2).*2
       = ((queue w).*2 ++ rs)%list
    /\ (resubmit rs futures (Some f) w).1
       = Return (futures ++ replicate (length rs) f)%list.
Proof.
  induction rs as [|[u p] rs IH]; intros futures w.
  - simpl. split; [apply ran_refl|]. by rewrite !app_nil_r.
  - change (resubmit ((u, p) :: rs) futures (Some f) w)
      with (resubmit rs (futures ++ [f])%list (Some f) (submit (u, p) w).2).
    destruct (submit_ran (u, p) w) as (Hran & Hq & _).
    destruct (IH (futures ++ [f])%list (submit (u, p) w).2) as (Hran' & Hq' & Hr').
    split; [|split].
    + exact (ran_trans _ _ _ [Submit (u, p)] (Submit <$> rs) [] [] Hran Hran').
    + rewrite Hq', Hq, fmap_app, <- app_assoc. reflexivity.
    + rewrite Hr', <- app_assoc. reflexivity.
Qed.

(** With [future] unbound, it submits the first element and raises. *)
Lemma resubmit_unbound (t : task) (rs : list task) (futures : list nat)
    (w : world) :
  resubmit (t :: rs) futures None w = (Raise UnboundLocalError, (submit t w).2).
Proof. by destruct t. Qed.

Lemma as_completed_ran (fs : list nat) (w : world) :
  valid_ref w ->
  (as_completed net fs w).1 = Return (remove_dups fs)
  /\ ((ran w (as_completed net fs w).2 [] (unmarked ok ((queue w).*2))
       /\ queue (as_completed net fs w).2 = [])
      \/ (as_completed net fs w).2 = w).
Proof.
  intros Hv. unfold as_completed.
  destruct (existsb (is_pending w) fs); [|by split; [|right]].
  unfold bind. destruct (drain_ran w Hv) as (Hran & Hq & Hr).
  destruct (drain net w) as [r w']. simpl in *. subst r. simpl.
  split; [reflexivity|]. by left.
Qed.

(** The bar advances once for each future [as_completed] gives, and the
    local [future] is the last of them. *)
Lemma pbar_updates_ran (completed : list nat) :
  forall (future : option nat) (w : world),
    ran w (pbar_updates completed future w).2
        (replicate (length completed) PbarUpdate) []
    /\ queue (pbar_updates completed future w).2 = queue w
    /\ (pbar_updates completed future w).1
       = Return (from_option Some future (last completed)).
Proof.
  induction completed as [|c completed IH]; intros future w.
  - simpl. split; [apply ran_refl|]. by split.
  - change (pbar_updates (c :: completed) future w)
      with (pbar_updates completed (Some c) (emit PbarUpdate w).2).
    destruct (emit_ran PbarUpdate w) as (Hran & Hq & _).
    destruct (IH (Some c) (emit PbarUpdate w).2) as (Hran' & Hq' & Hr).
    split; [exact (ran_trans _ _ _ [PbarUpdate] _ [] [] Hran Hran')|].
    split; [congruence|]. rewrite Hr.
    destruct completed as [|c' completed]; [reflexivity|].
    rewrite last_cons_cons.
    destruct (last (c' :: completed)) eqn:Hlast; [reflexivity|].
    by apply last_None in Hlast.
Qed.

(** Leaving [with ThreadPoolExecutor(...)] runs what still waits, whether
    the body ended normally or by an exception. *)
Lemma with_pool_ran {A} (n : Z) (body : M A) (w w1 : world) (r : result A)
    (trace : list event) (pool : list task) :
  0 < n -> valid_ref w ->
  body (emit (PoolOpen n) w).2 = (r, w1) ->
  ran (emit (PoolOpen n) w).2 w1 trace pool ->
  r <> OutOfFuel ->
  exists w', with_pool net n body w = (r, w')
             /\ ran w w' ([PoolOpen n] ++ trace ++ [PoolShutdown])
                    (pool ++ unmarked ok ((queue w1).*2))
             /\ queue w' = [].
Proof.
  intros Hn Hv Hbody Hran Hr. unfold with_pool.
  replace (n <=? 0) with false by (symmetry; apply Z.leb_gt; lia).
  change ((emit (PoolOpen n) ;; finally body (drain net ;; emit PoolShutdown)) w)
    with (finally body (drain net ;; emit PoolShutdown) (emit (PoolOpen n) w).2).
  destruct (emit_ran (PoolOpen n) w) as (Hopen & _ & _).
  assert (Hv1 : valid_ref w1)
    by (eapply ran_valid; [exact Hran | eapply ran_valid; [exact Hopen | exact Hv]]).
  destruct (drain_ran w1 Hv1) as (Hdrain & Hq & Hd).
  destruct (emit_ran PoolShutdown (drain net w1).2) as (Hshut & Hq' & _).
  unfold finally. rewrite Hbody. unfold bind.
  destruct (drain net w1) as [rd w2]. simpl in Hdrain, Hq, Hd, Hshut, Hq'.
  subst rd.
  exists (emit PoolShutdown w2).2.
  split; [by destruct r|]. split; [|simpl; exact Hq].
  pose proof (ran_trans _ _ _ _ _ _ _ Hopen
                (ran_trans _ _ _ _ _ _ _ Hran
                   (ran_trans _ _ _ _ _ _ _ Hdrain Hshut))) as Hall.
  simpl in Hall. by rewrite !app_nil_r in Hall.
Qed.

Lemma with_pbar_ran {A} (n : Z) (body : M A) (w w1 : world) (r : result A)
    (trace : list event) (pool : list task) :
  body (emit (PbarOpen n) w).2 = (r, w1) ->
  ran (emit (PbarOpen n) w).2 w1 trace pool ->
  r <> OutOfFuel ->
  exists w', with_pbar n body w = (r, w')
             /\ ran w w' ([PbarOpen n] ++ trace ++ [PbarClose]) pool
             /\ queue w' = queue w1.
Proof.
  intros Hbody Hran Hr. unfold with_pbar.
  change ((emit (PbarOpen n) ;; finally body (emit PbarClose)) w)
    with (finally body (emit PbarClose) (emit (PbarOpen n) w).2).
  destruct (emit_ran (PbarOpen n) w) as (Hopen & _ & _).
  destruct (emit_ran PbarClose w1) as (Hclose & Hq & _).
  unfold finally. rewrite Hbody.
  exists (emit PbarClose w1).2. split; [by destruct r|]. split; [|exact Hq].
  pose proof (ran_trans _ _ _ _ _ _ _ Hopen
                (ran_trans _ _ _ _ _ _ _ Hran Hclose)) as Hall.
  simpl in Hall. by rewrite !app_nil_r in Hall.
Qed.

(** One cleanup phase entered with [future] bound. *)
Lemma cleanup_phase_bound (rs : list task) (f : nat) (w : world) :
  0 < max_workers self -> queue w = [] -> valid_ref w ->
  exists w',
    cleanup_phase net self rs (Some f) w = (Return (Some f), w')
    /\ ran w w' (phase_trace self rs) (unmarked ok rs) /\ queue w' = [].
Proof.
  intros Hn Hq Hv. unfold cleanup_phase.
  set (w1 := (emit (PbarOpen (Z.of_nat (length rs))) w).2).
  set (w2 := (emit (PoolOpen (max_workers self)) w1).2).
  assert (Hv2 : valid_ref w2) by exact Hv.
  destruct (resubmit_ran f rs [] w2) as (Hran3 & Hq3 & Hr3).
  destruct (resubmit rs [] (Some f) w2) as [r3 w3] eqn:H3.
  simpl in Hran3, Hq3, Hr3. subst r3.
  assert (Hqueue3 : (queue w3).*2 = rs) by (by rewrite Hq3; subst w2 w1; simpl; rewrite Hq).
  assert (Hv3 : valid_ref w3) by (eapply ran_valid; eauto).
  destruct (as_completed_ran (replicate (length rs) f) w3 Hv3) as (Hr4 & Hcase).
  destruct (as_completed net (replicate (length rs) f) w3) as [r4 w4] eqn:H4.
  simpl in Hr4, Hcase. subst r4.
  destruct (pbar_updates_ran (remove_dups (replicate (length rs) f))
              (Some f) w4) as (Hran5 & Hq5 & Hr5).
  destruct (pbar_updates (remove_dups (replicate (length rs) f)) (Some f) w4)
    as [r5 w5] eqn:H5.
  simpl in Hran5, Hq5, Hr5. subst r5.
  rewrite remove_dups_replicate in Hran5.
  assert (Hfut : from_option Some (Some f)
                   (last (remove_dups (replicate (length rs) f))) = Some f)
    by (rewrite remove_dups_replicate; by destruct rs).
  assert (Hupd : replicate (length (match length rs with
                                    | O => [] | S _ => [f] end)) PbarUpdate
                 = match rs with [] => [] | _ :: _ => [PbarUpdate] end)
    by (by destruct rs).
  rewrite Hupd in Hran5.
  assert (Hbody : (futures <- resubmit rs [] (Some f) ;;
                   completed <- as_completed net futures ;;
                   pbar_updates completed (Some f)) w2 = (Return (Some f), w5)).
  { unfold bind. rewrite H3, H4, H5. by rewrite Hfut. }
  assert (Hpool : exists pool, ran w2 w5
                                 ((Submit <$> rs)
                                  ++ match rs with
                                     | [] => [] | _ :: _ => [PbarUpdate]
                                     end) pool
                               /\ (pool ++ unmarked ok ((queue w5).*2))%list
                                  = unmarked ok rs).
  { destruct Hcase as [[Hran4 Hq4]| ->].
    - exists (unmarked ok rs). split.
      + rewrite Hqueue3 in Hran4.
        pose proof (ran_trans _ _ _ _ _ _ _ Hran3
                      (ran_trans _ _ _ _ _ _ _ Hran4 Hran5)) as Hall.
        simpl in Hall. by rewrite !app_nil_r in Hall.
      + by rewrite Hq5, Hq4, app_nil_r.
    - exists []. split.
      + exact (ran_trans _ _ _ _ _ _ _ Hran3 Hran5).
      + by rewrite Hq5, Hqueue3. }
  destruct Hpool as (pool & Hran25 & Hpool).
  destruct (with_pool_ran (max_workers self) _ w1 w5 (Return (Some f)) _ pool
              Hn Hv Hbody Hran25 ltac:(discriminate)) as (w6 & H6 & Hran6 & Hq6).
  rewrite Hpool in Hran6.
  destruct (with_pbar_ran (Z.of_nat (length rs)) _ w w6 (Return (Some f)) _
              (unmarked ok rs) H6 Hran6 ltac:(discriminate))
    as (w7 & H7 & Hran7 & Hq7).
  exists w7. split; [exact H7|]. split; [|congruence].
  unfold phase_trace. by rewrite <- !app_assoc in *.
Qed.

(** One cleanup phase entered with [future] unbound and something to
    resubmit. *)
Lemma cleanup_phase_unbound (t : task) (rs : list task) (w : world) :
  0 < max_workers self -> queue w = [] -> valid_ref w ->
  exists w',
    cleanup_phase net self (t :: rs) None w = (Raise UnboundLocalError, w')
    /\ ran w w' [PbarOpen (Z.of_nat (length (t :: rs)));
                 PoolOpen (max_workers self); Submit t; PoolShutdown; PbarClose]
           (unmarked ok [t])
    /\ queue w' = [].
Proof.
  intros Hn Hq Hv. unfold cleanup_phase.
  set (w1 := (emit (PbarOpen (Z.of_nat (length (t :: rs)))) w).2).
  set (w2 := (emit (PoolOpen (max_workers self)) w1).2).
  destruct (submit_ran t w2) as (Hran3 & Hq3 & _).
  assert (Hbody : (futures <- resubmit (t :: rs) [] None ;;
                   completed <- as_completed net futures ;;
                   pbar_updates completed None) w2
                  = (Raise UnboundLocalError, (submit t w2).2)).
  { unfold bind. by rewrite resubmit_unbound. }
  destruct (with_pool_ran (max_workers self) _ w1 (submit t w2).2
              (Raise UnboundLocalError) [Submit t] [] Hn Hv Hbody Hran3
              ltac:(discriminate))
    as (w6 & H6 & Hran6 & Hq6).
  assert (Hqt : (queue (submit t w2).2).*2 = [t])
    by (rewrite Hq3; subst w2 w1; simpl; by rewrite Hq).
  rewrite Hqt in Hran6. change ([] ++ unmarked ok [t])%list
    with (unmarked ok [t]) in Hran6.
  destruct (with_pbar_ran (Z.of_nat (length (t :: rs))) _ w w6
              (Raise UnboundLocalError) _ (unmarked ok [t]) H6 Hran6
              ltac:(discriminate))
    as (w7 & H7 & Hran7 & Hq7).
  exists w7. split; [exact H7|]. split; [exact Hran7 | congruence].
Qed.


(** From line 214 on the loop iterates the Failure List itself, which no
    statement shortens. *)
Lemma cleanup_loops (fuel : nat) :
  forall (f : nat) (w : world),
    0 < max_workers self -> queue w = [] -> valid_ref w ->
    failures w <> [] ->
    (cleanup net self fuel (incomplete_images w) (Some f) w).1 = OutOfFuel.
Proof.
  induction fuel as [|fuel IH]; intros f w Hn Hq Hv Hf.
  - simpl. unfold bind, read_list.
    change (default [] (heap w !! incomplete_images w)) with (failures w).
    by destruct (failures w).
  - destruct (cleanup_phase_bound (failures w) f w Hn Hq Hv)
      as (w' & Hphase & Hran & Hq').
    simpl cleanup. unfold bind at 1. unfold read_list at 1.
    change (default [] (heap w !! incomplete_images w)) with (failures w).
    destruct (failures w) as [|t rs] eqn:Hrs; [done|].
    cbv beta iota. unfold bind at 1. rewrite Hphase.
    unfold bind at 1. unfold get_incomplete_images at 1.
    apply IH; [exact Hn | exact Hq' | by eapply ran_valid |].
    destruct (ran_failures _ _ _ _ Hran) as (extra & -> & _).
    rewrite Hrs. discriminate.
Qed.


End PoolFacts.

Lemma unmarked_all (l : list task) : unmarked (fun _ => false) l = l.
Proof.
  unfold unmarked. induction l as [|t l IH]; [reflexivity|].
  simpl. f_equal. exact IH.
Qed.

Lemma never_marked (net : list request -> request -> reply) (t : task) :
  (fun _ : task => false) t = true -> always_answered net t.
Proof. discriminate. Qed.

Lemma marked_served (net : list request -> request -> reply)
    (rs : list task) :
  Forall (always_answered net) rs ->
  forall t, bool_decide (t ∈ rs) = true -> always_answered net t.
Proof.
  intros Hall t Ht. apply bool_decide_eq_true in Ht.
  by apply (proj1 (Forall_forall _ _) Hall).
Qed.

Lemma marked_all (rs : list task) :
  Forall (fun t => bool_decide (t ∈ rs) = true) rs.
Proof. apply Forall_forall. intros t Ht. by apply bool_decide_eq_true. Qed.

Lemma retry_failures_swapped (net : list request -> request -> reply)
    (self : FivekCrawler) (fuel : nat) (future : option nat) (w : world) :
  retry_failures net self fuel future w
  = cleanup net self fuel (incomplete_images w) future (swapped w).
Proof. reflexivity. Qed.

Lemma swapped_valid (w : world) :
  valid_ref (swapped w) /\ failures (swapped w) = []
  /\ default [] (heap (swapped w) !! incomplete_images w) = failures w.
Proof.
  unfold valid_ref, failures, swapped. simpl.
  rewrite list_lookup_middle by reflexivity.
  split; [by eexists|]. split; [reflexivity|]. apply lookup_fresh_list.
Qed.

(** *** The list that is never cleared again

    Line 214 makes [remains] the list object [self.incomplete_images] itself
    and, unlike line 204, puts no new list in its place. The lemma below
    follows the loop from a state in which the local [future] is bound, as
    it would be after a bulk phase that submitted a task. *)

(** Entered with one recorded task and [future] bound, the loop resubmits
    the task, which is refused once more, and from then on resubmits it in
    every phase although each of these downloads succeeds: however many
    phases the model follows, the loop has not ended. *)
Lemma retry_failures_never_ends (fuel : nat) :
  (retry_failures net_recovering script_crawler fuel (Some 0%nat)
     after_failed_bulk).1 = OutOfFuel.
Proof.
  destruct fuel as [|fuel]; [vm_compute; reflexivity|].
  rewrite retry_failures_swapped.
  assert (Hphase : exists w',
            cleanup_phase net_recovering script_crawler [task_289] (Some 0%nat)
              (swapped after_failed_bulk)
            = (Return (Some 0%nat), w')
            /\ queue w' = [] /\ valid_ref w' /\ failures w' <> []).
  { eexists. split; [vm_compute; reflexivity|].
    split; [reflexivity|]. split; [by eexists | discriminate]. }
  destruct Hphase as (w' & Hphase & Hq & Hv & Hf).
  change (cleanup net_recovering script_crawler (S fuel)
            (incomplete_images after_failed_bulk) (Some 0%nat))
    with (rs <- read_list 0%nat ;;
          match rs with
          | [] => ret tt
          | _ :: _ =>
              future <- cleanup_phase net_recovering script_crawler rs
                          (Some 0%nat) ;;
              remains <- get_incomplete_images ;;
              cleanup net_recovering script_crawler fuel remains future
          end).
  unfold bind at 1, read_list at 1.
  change (default [] (heap (swapped after_failed_bulk) !! 0%nat))
    with [task_289].
  cbv beta iota. unfold bind at 1. rewrite Hphase.
  unfold bind at 1, get_incomplete_images at 1.
  apply (cleanup_loops net_recovering script_crawler _
           (never_marked net_recovering) fuel 0%nat w');
    [simpl; lia | exact Hq | exact Hv | exact Hf].
Qed.

(** X13. One cleanup phase entered with the local [future] unbound, as it is
    when the bulk phase had no URL to iterate, and with something to
    resubmit. Whatever the network does, the first task is submitted, line
    211 raises [UnboundLocalError], and no other task is submitted; the
    pool still runs the worker of the first task before the exception
    leaves the [with] blocks, so the task may be recorded once more. *)
Theorem cleanup_phase_without_future_raises
    (net : list request -> request -> reply) (self : FivekCrawler)
    (t : task) (rs : list task) (w : world) :
  0 < max_workers self -> queue w = [] -> valid_ref w ->
  let run := cleanup_phase net self (t :: rs) None w in
  run.1 = Raise UnboundLocalError
  /\ pool_events (new_events w run.2)
     = [PbarOpen (Z.of_nat (S (length rs))); PoolOpen (max_workers self);
        Submit t; PoolShutdown; PbarClose]
  /\ queue run.2 = []
  /\ incomplete_images run.2 = incomplete_images w
  /\ (failures run.2 = failures w
      \/ failures run.2 = (failures w ++ [t])%list)
  /\ (always_answered net t -> failures run.2 = failures w).
Proof.
  intros Hn Hq Hv run.
  destruct (cleanup_phase_unbound net self _ (never_marked net) t rs w Hn Hq Hv)
    as (w' & Hrun & Hran & Hq').
  fold run in Hrun. rewrite unmarked_all in Hran.
  destruct (ran_log _ _ _ _ Hran) as (l & Hl & Ht).
  rewrite Hrun. simpl.
  rewrite (new_events_app _ _ _ Hl).
  split; [reflexivity|]. split; [exact Ht|]. split; [exact Hq'|].
  split; [exact (ran_ref _ _ _ _ Hran)|].
  split.
  - destruct (ran_failures _ _ _ _ Hran) as (extra & He & Hsub).
    destruct extra as [|t' extra].
    + left. by rewrite app_nil_r in He.
    + right. apply sublist_cons_l in Hsub as (k1 & k2 & Hk & Hsub').
      destruct k1 as [|? [|? ?]]; try discriminate.
      injection Hk as -> <-. apply sublist_nil_r in Hsub'. by subst extra.
  - intros Hserved.
    assert (Hall : Forall (always_answered net) [t]) by (by constructor).
    destruct (cleanup_phase_unbound net self _ (marked_served net [t] Hall)
                t rs w Hn Hq Hv) as (w'' & Hrun' & Hran' & _).
    fold run in Hrun'. rewrite Hrun in Hrun'. injection Hrun' as <-.
    rewrite (unmarked_none _ _ (marked_all [t])) in Hran'.
    destruct (ran_failures _ _ _ _ Hran') as (extra & He & Hsub).
    apply sublist_nil_r in Hsub. subst extra. by rewrite app_nil_r in He.
Qed.

Lemma cleanup_phase_without_future_raises_witness :
  0 < max_workers script_crawler
  /\ queue (fresh_world ∅) = []
  /\ valid_ref (fresh_world ∅)
  /\ (cleanup_phase net_stalling script_crawler [task_289; task_290] None
        (fresh_world ∅)).1 = Raise UnboundLocalError.
Proof.
  assert (Hn : 0 < max_workers script_crawler) by (simpl; lia).
  assert (Hv : valid_ref (fresh_world ∅)) by (by eexists).
  split; [exact Hn|]. split; [reflexivity|]. split; [exact Hv|].
  exact (proj1 (cleanup_phase_without_future_raises net_stalling
                  script_crawler task_289 [task_290] (fresh_world ∅)
                  Hn eq_refl Hv)).
Defined.



(** X17. A run of [main] on a crawler whose Failure List holds tasks when
    [main] is called, and on which no work waits. Whatever the network,
    the listing and the disk, the run ends by an exception, and of the
    recorded tasks at most the first is resubmitted: the bulk phase
    submits nothing and leaves the local [future] unbound, so the cleanup
    phase, when it is reached, raises [UnboundLocalError] at line 211 right
    after its first submission. *)
Theorem main_never_recovers_recorded_failures
    (net : list request -> request -> reply) (self : FivekCrawler)
    (fuel : nat) (w : world) (t : task) (rest : list task) :
  queue w = [] -> valid_ref w -> failures w = t :: rest ->
  let run := main net self (S fuel) w in
  (exists e, run.1 = Raise e)
  /\ (submitted (new_events w run.2) = []
      \/ (submitted (new_events w run.2) = [t]
          /\ run.1 = Raise UnboundLocalError)).
Proof.
  intros Hqueue Hv Hfail run.
  assert (Hgoal : exists r w' l,
            main net self (S fuel) w = (r, w')
            /\ log w' = (log w ++ l)%list
            /\ (exists e, r = Raise e)
            /\ (submitted l = []
                \/ (submitted l = [t] /\ r = Raise UnboundLocalError))).
  { unfold main. unfold bind at 1.
    destruct (make_request_quiet net 5 w) as (Hq1 & Hr1).
    destruct (_make_request net 5 w) as [[web_html|e|] w1]; simpl in Hq1, Hr1;
      [|destruct Hq1 as (_ & _ & _ & l & Hl & Hs);
        eexists _, _, l; split; [reflexivity|]; split; [exact Hl|];
        split; [by eexists | by left]
       | done].
    unfold bind at 1.
    destruct (create_folders_quiet self (expert_list self) None w1)
      as (Hq2 & d & Hd).
    destruct (create_folders self (expert_list self) None w1) as [r w2].
    simpl in Hq2, Hd. subst r.
    pose proof (quiet_trans _ _ _ Hq1 Hq2) as Hq12.
    destruct Hq12 as (Hh & Hi & Hq & l & Hl & Hs).
    destruct (bulk_phase_strings net self (_get_expert_images_url self web_html)
                d (total_images self) w2 (extractor_strings_only self web_html))
      as (w3 & Hrun & _ & _ & Hh3 & Hi3 & Hq3 & _ & Hlog3); [congruence|].
    unfold bind at 1. rewrite Hrun.
    assert (Hlog : exists l', log w3 = (log w ++ l')%list /\ submitted l' = []).
    { eexists. split; [rewrite Hlog3, Hl, <- app_assoc; reflexivity|].
      rewrite submitted_app, Hs.
      by destruct (max_workers self <=? 0). }
    destruct Hlog as (l3 & Hl3 & Hs3).
    destruct (max_workers self <=? 0) eqn:Hn;
      [eexists _, _, l3; split; [reflexivity|]; split; [exact Hl3|];
       split; [by eexists | by left]|].
    apply Z.leb_gt in Hn.
    destruct (_get_expert_images_url self web_html) as [|u urls|e]; simpl;
      [| destruct d;
         (eexists _, _, l3; split; [reflexivity|]; split; [exact Hl3|];
          split; [by eexists | by left])
       | eexists _, _, l3; split; [reflexivity|]; split; [exact Hl3|];
         split; [by eexists | by left]].
    rewrite retry_failures_swapped.
    destruct (swapped_valid w3) as (Hv3 & _ & Hrs).
    assert (Hf3 : failures w3 = t :: rest)
      by (unfold failures; rewrite Hh3, Hh, Hi3, Hi; exact Hfail).
    rewrite Hf3 in Hrs.
    destruct (cleanup_phase_unbound net self _ (never_marked net) t rest
                (swapped w3) Hn Hq3 Hv3) as (w4 & Hph & Hran & _).
    destruct (ran_log _ _ _ _ Hran) as (l4 & Hl4 & Ht4).
    change (log (swapped w3)) with (log w3) in Hl4.
    exists (Raise UnboundLocalError), w4, (l3 ++ l4)%list.
    split; [|split; [by rewrite Hl4, Hl3, app_assoc|]].
    - simpl cleanup. unfold bind at 1. unfold read_list at 1. rewrite Hrs.
      cbv beta iota. unfold bind at 1. by rewrite Hph.
    - split; [by eexists|]. right. split; [|reflexivity].
      by rewrite submitted_app, Hs3, <- submitted_pool_events, Ht4. }
  destruct Hgoal as (r & w' & l & Hmain & Hl & Hr & Hs).
  subst run. rewrite Hmain. simpl. rewrite (new_events_app _ _ _ Hl).
  by split.
Qed.

Lemma main_never_recovers_recorded_failures_witness :
  queue after_two_downloads = []
  /\ valid_ref after_two_downloads
  /\ failures after_two_downloads = [task_289; task_290]
  /\ exists e, (main (net_serving "") script_crawler 1 after_two_downloads).1
               = Raise e.
Proof.
  assert (Hv : valid_ref after_two_downloads) by (by eexists).
  split; [reflexivity|]. split; [exact Hv|]. split; [reflexivity|].
  exact (proj1 (main_never_recovers_recorded_failures (net_serving "")
                  script_crawler 0 after_two_downloads task_289 [task_290]
                  eq_refl Hv eq_refl)).
Defined.
